(** * ImageGenerator: scene randomization, collision rejection, safety audit
      and dataset log of [src/ImageGenerator.py], as a shallow embedding.

    Python [float]s are binary64 numbers: they are modelled by Rocq's
    primitive floats, whose comparisons and arithmetic are the IEEE 754 ones.
    Blender and mathutils store coordinates and angles in single precision
    and compute with them in single precision: a stored number is a binary64
    number that is rounded to binary32 where the program writes or computes
    it ([float32]).

    Blender ([bpy]), mathutils, numpy and the csv module are external to the
    repository.  What the program needs of them is modelled here as plainly
    as possible and is marked as such where it is defined.  What the program
    prints is not modelled. *)

From Stdlib Require Import ZArith Lia Bool List String Ascii Floats.
From Stdlib Require Import DecimalString DecimalPos DecimalN.
From stdpp Require Import base option gmap strings list.
Import ListNotations.

Local Open Scope Z_scope.
Local Open Scope string_scope.
Local Open Scope list_scope.

(** ** Python runtime: exceptions, results, state *)

(** The exceptions the modelled functions can raise. *)
Inductive exn : Type :=
  | AttributeError   (* attribute access on [None] *)
  | TypeError        (* [None < float], iteration over [None] *)
  | ValueError       (* [min()] of an empty sequence, [int()] of a non-number *)
  | IndexError       (* list index out of range *)
  | ReferenceError   (* a Blender object that is no longer in the scene *)
  | OverflowError.   (* [np.random.uniform] over bounds without a finite difference *)

(** The outcome of running a piece of Python: it returns a value, it raises,
    or (only for the [while] loop, run with a bound on its iterations) the
    bound was reached with the loop still running. *)
Inductive outcome (A : Type) : Type :=
  | Return (a : A)
  | Raise (e : exn)
  | OutOfFuel.
Arguments Return {A} a.
Arguments Raise {A} e.
Arguments OutOfFuel {A}.

(** Code that reads and writes a state [S]. *)
Definition Py (S A : Type) : Type := S -> outcome (A * S).

Definition ret {S A : Type} (a : A) : Py S A := fun s => Return (a, s).

Definition raise {S A : Type} (e : exn) : Py S A := fun _ => Raise e.

Definition bind {S A B : Type} (m : Py S A) (k : A -> Py S B) : Py S B :=
  fun s =>
    match m s with
    | Return (a, s') => k a s'
    | Raise e => Raise e
    | OutOfFuel => OutOfFuel
    end.

Definition get_state {S : Type} : Py S S := fun s => Return (s, s).

Definition modify {S : Type} (f : S -> S) : Py S unit := fun s => Return (tt, f s).

Notation "'let*' x ':=' m 'in' k" := (bind m (fun x => k))
  (at level 10, x pattern, m at level 100, k at level 200).

(** ** Single precision *)

(** [(float)a] in C: the binary32 number nearest to [a], ties to even, and
    an infinity when [a] is beyond the binary32 range; a NaN stays a NaN and
    a zero keeps its sign.  The result is again a binary64 number. *)
Definition float32 (a : float) : float :=
  match Prim2SF a with
  | S754_finite s m e =>
      SF2Prim (SpecFloat.binary_normalize 24 128 (if s then Z.neg m else Z.pos m) e s)
  | _ => a
  end.

(** [FLT_MAX], the largest binary32 number. *)
Definition FLT_MAX : float := 0x1.fffffep+127%float.

(** A number as Blender stores it in a float property of an object or a
    bone: converted to single precision and clamped to the range of the
    property, which is [-FLT_MAX] to [FLT_MAX] for locations, scales and
    angles. *)
Definition stored (a : float) : float :=
  let value := float32 a in
  if (value <? - FLT_MAX)%float then (- FLT_MAX)%float
  else if (FLT_MAX <? value)%float then FLT_MAX
  else value.

(** ** mathutils: vectors and matrices *)

(** [mathutils.Vector] of dimension three. *)
Record Vector : Type := mkVector { x : float; y : float; z : float }.

(** One row of a 4x4 matrix. *)
Record Row : Type := mkRow { c0 : float; c1 : float; c2 : float; c3 : float }.

(** [mathutils.Matrix], 4x4, as Blender's [matrix_world]. *)
Record Matrix : Type := mkMatrix { r0 : Row; r1 : Row; r2 : Row; r3 : Row }.

(** [row . (v.x, v.y, v.z, 1)] as mathutils computes it: every product in
    single precision, their sum from [0.0] on in double precision, and the
    sum stored in single precision. *)
Definition row_dot (r : Row) (v : Vector) : float :=
  float32 (0 + float32 (c0 r * x v) + float32 (c1 r * y v) + float32 (c2 r * z v)
           + float32 (c3 r * 1))%float.

(** [matrix @ vector] for a 4x4 matrix and a 3D vector: the vector is
    extended by [w = 1] and the result is the first three components. *)
Definition matmul_vec (m : Matrix) (v : Vector) : Vector :=
  mkVector (row_dot (r0 m) v) (row_dot (r1 m) v) (row_dot (r2 m) v).

(** [v1 - v2], in single precision. *)
Definition vec_sub (v1 v2 : Vector) : Vector :=
  mkVector (float32 (x v1 - x v2)) (float32 (y v1 - y v2)) (float32 (z v1 - z v2)).

(** [v.length]: the Euclidean norm as mathutils computes it, the squares in
    single precision, their sum (from the last component to the first, from
    [0.0] on) and its square root in double precision. *)
Definition vec_length (v : Vector) : float :=
  PrimFloat.sqrt (0 + float32 (z v * z v) + float32 (y v * y v) + float32 (x v * x v))%float.

(** ** Python built-ins on floats *)

(** [float('inf')]. *)
Definition float_inf : float := infinity.

(** [math.radians(x)]: [x * (pi / 180)]. *)
Definition radians (deg : float) : float := (deg * 0x1.1df46a2529d39p-6)%float.

(** [min(xs)]: the first element, replaced by each later one that compares
    [<] to it; [ValueError] on an empty sequence. *)
Definition py_min (xs : list float) : exn + float :=
  match xs with
  | [] => inl ValueError
  | x0 :: rest => inr (fold_left (fun m v => if (v <? m)%float then v else m) rest x0)
  end.

(** [max(xs)]: the first element, replaced by each later one that compares
    [>] to it; [ValueError] on an empty sequence. *)
Definition py_max (xs : list float) : exn + float :=
  match xs with
  | [] => inl ValueError
  | x0 :: rest => inr (fold_left (fun m v => if (m <? v)%float then v else m) rest x0)
  end.

Definition lift {S A : Type} (r : exn + A) : Py S A :=
  match r with
  | inl e => raise e
  | inr a => ret a
  end.

(** ** Blender: objects and the scene *)

(** [obj.type]; only ['MESH'] is told apart by the program's geometry code. *)
Inductive ObjType : Type := MESH | ARMATURE | EMPTY | CAMERA | LIGHT.

Definition is_mesh (t : ObjType) : bool :=
  match t with MESH => true | _ => false end.

(** A Blender object, with the attributes the program reads and writes.
    - [location], [rotation_euler], [scale]: the transform the program sets;
    - [matrix_world]: the object-to-world matrix as of the last evaluation of
      the view layer, stale after a write to the transform until the next
      [view_layer.update()];
    - [bound_box]: the corners of the local bounding box;
    - [data_vertices]: [obj.data.vertices[k].co], the stored mesh;
    - [edit_vertices]: the edit-mode mesh when the object is in edit mode and
      its changes are not written back to [data] yet;
    - [evaluated_vertices]: the vertices of [obj.evaluated_get(depsgraph)
      .to_mesh()], the mesh with modifiers and armature pose applied, in
      object space. *)
Record Object : Type := mkObject {
  type : ObjType;
  location : Vector;
  rotation_euler : Vector;
  scale : Vector;
  matrix_world : Matrix;
  bound_box : list Vector;
  data_vertices : list Vector;
  edit_vertices : option (list Vector);
  evaluated_vertices : list Vector
}.

(** A Python reference to a Blender object: [None], or the object of that
    name in [bpy.data.objects] (names are unique there). *)
Definition pyref : Type := option string.

(** The state the placement code runs in: [bpy.data.objects] and the state
    of numpy's global random generator, as the stream of the numbers in
    [0, 1) that it will produce. *)
Record World : Type := mkWorld {
  objects : gmap string Object;
  random_state : nat -> float
}.

Definition set_objects (f : gmap string Object -> gmap string Object) (w : World) : World :=
  mkWorld (f (objects w)) (random_state w).

Definition set_random_state (rs : nat -> float) (w : World) : World :=
  mkWorld (objects w) rs.

(** [bpy.data.objects.get(name)]. *)
Definition objects_get (name : string) : Py World pyref :=
  fun w =>
    match objects w !! name with
    | Some _ => Return (Some name, w)
    | None => Return (None, w)
    end.

(** Reading an attribute of [obj]: [AttributeError] on [None]. *)
Definition getattr {A : Type} (obj : pyref) (field : Object -> A) : Py World A :=
  fun w =>
    match obj with
    | None => Raise AttributeError
    | Some n =>
        match objects w !! n with
        | Some o => Return (field o, w)
        | None => Raise ReferenceError
        end
    end.

(** Writing attributes of [obj]: [AttributeError] on [None]. *)
Definition setattr (obj : pyref) (f : Object -> Object) : Py World unit :=
  fun w =>
    match obj with
    | None => Raise AttributeError
    | Some n =>
        match objects w !! n with
        | Some _ => Return (tt, set_objects (alter f n) w)
        | None => Raise ReferenceError
        end
    end.

Definition with_location (v : Vector) (o : Object) : Object :=
  mkObject (type o) v (rotation_euler o) (scale o) (matrix_world o)
           (bound_box o) (data_vertices o) (edit_vertices o) (evaluated_vertices o).

Definition with_rotation_euler (v : Vector) (o : Object) : Object :=
  mkObject (type o) (location o) v (scale o) (matrix_world o)
           (bound_box o) (data_vertices o) (edit_vertices o) (evaluated_vertices o).

Definition with_scale (v : Vector) (o : Object) : Object :=
  mkObject (type o) (location o) (rotation_euler o) v (matrix_world o)
           (bound_box o) (data_vertices o) (edit_vertices o) (evaluated_vertices o).

Definition with_matrix_world (m : Matrix) (o : Object) : Object :=
  mkObject (type o) (location o) (rotation_euler o) (scale o) m
           (bound_box o) (data_vertices o) (edit_vertices o) (evaluated_vertices o).

Definition with_data_vertices (vs : list Vector) (o : Object) : Object :=
  mkObject (type o) (location o) (rotation_euler o) (scale o) (matrix_world o)
           (bound_box o) vs (edit_vertices o) (evaluated_vertices o).

(** [obj.update_from_editmode()] on one object: the edit-mode mesh, when
    there is one, is written to [obj.data]. *)
Definition flush_editmode (o : Object) : Object :=
  match edit_vertices o with
  | Some vs => with_data_vertices vs o
  | None => o
  end.

Definition update_from_editmode (obj : pyref) : Py World unit :=
  setattr obj flush_editmode.

(** numpy accepts the bounds [(low, high)] of a uniform distribution when
    [high - low] is finite. *)
Definition finite_range (range : float * float) : bool :=
  is_finite (snd range - fst range)%float.

(** [np.random.uniform(low, high)]: [OverflowError] when [high - low] is not
    finite, else [low + (high - low) * u] for the next number [u] of the
    generator. *)
Definition uniform (range : float * float) : Py World float :=
  fun w =>
    if finite_range range then
      let u := random_state w 0%nat in
      Return ((fst range + (snd range - fst range) * u)%float,
              set_random_state (fun k => random_state w (S k)) w)
    else Raise OverflowError.

(** Blender composes an object's world matrix from its location, Euler
    rotation and scale.  The composition is Blender's: it is an interface
    here, and the program is modelled over any implementation of it
    (parenting and constraints are not modelled). *)
Class Depsgraph : Type :=
  compose_matrix : Vector -> Vector -> Vector -> Matrix.

(** The part of [config.json] that the modelled functions read:
    [SceneParameters.Workpiece.SizeRange], [.PositionRange] and
    [SceneParameters.SafetyZone.Distance]. *)
Record Config : Type := mkConfig {
  SizeRange_x : float * float;
  SizeRange_y : float * float;
  PositionRange_x : float * float;
  PositionRange_y : float * float;
  SafetyZone_Distance : float
}.

(** ** The program: placement *)

Section Placement.
Context `{Depsgraph}.

Definition evaluate_object (o : Object) : Object :=
  with_matrix_world (compose_matrix (location o) (rotation_euler o) (scale o)) o.

(** The scene with every object's [matrix_world] brought up to date with
    its transform. *)
Definition evaluate_view_layer (w : World) : World :=
  set_objects (fmap evaluate_object) w.

(** [bpy.context.view_layer.update()] *)
Definition view_layer_update : Py World unit :=
  modify evaluate_view_layer.

(** [randomize_position(obj, range_x, range_y, range_z=None)]; Blender
    stores the coordinates in single precision. *)
Definition randomize_position (obj : pyref) (range_x range_y : float * float)
    (range_z : option (float * float)) : Py World unit :=
  let* vx := uniform range_x in
  let* _ := setattr obj (fun o => with_location
                                    (mkVector (stored vx) (y (location o)) (z (location o))) o) in
  let* vy := uniform range_y in
  let* _ := setattr obj (fun o => with_location
                                    (mkVector (x (location o)) (stored vy) (z (location o))) o) in
  match range_z with
  | Some rz =>
      let* vz := uniform rz in
      setattr obj (fun o => with_location
                              (mkVector (x (location o)) (y (location o)) (stored vz)) o)
  | None => ret tt
  end.

(** [randomize_workpiece(workpiece, config)]; Blender stores the scale and
    the angle in single precision. *)
Definition randomize_workpiece (workpiece : pyref) (config : Config) : Py World pyref :=
  let* sx := uniform (SizeRange_x config) in
  let* sy := uniform (SizeRange_y config) in
  let* _ := setattr workpiece
              (with_scale (mkVector (stored sx) (stored sy) (stored 1))) in
  let* deg := uniform (0%float, 360%float) in
  let* _ := setattr workpiece
              (fun o => with_rotation_euler
                          (mkVector (x (rotation_euler o)) (y (rotation_euler o))
                                    (stored (radians deg))) o) in
  let* _ := randomize_position workpiece (PositionRange_x config) (PositionRange_y config) None in
  ret workpiece.

(** The tuple [(min_x, max_x, min_y, max_y)]. *)
Definition Area : Type := float * float * float * float.

(** [get_world_bounding_box_xy(obj)] *)
Definition get_world_bounding_box_xy (obj : pyref) : Py World Area :=
  let* _ := view_layer_update in
  let* corners_local := getattr obj bound_box in
  let* m := getattr obj matrix_world in
  let bbox_corners := map (matmul_vec m) corners_local in
  let* min_x := lift (py_min (map x bbox_corners)) in
  let* max_x := lift (py_max (map x bbox_corners)) in
  let* min_y := lift (py_min (map y bbox_corners)) in
  let* max_y := lift (py_max (map y bbox_corners)) in
  ret (min_x, max_x, min_y, max_y).

(** [is_point_within_xy_area(point, min_x, max_x, min_y, max_y)] *)
Definition is_point_within_xy_area (point : Vector) (min_x max_x min_y max_y : float) : bool :=
  ((min_x <=? x point)%float && (x point <=? max_x)%float)
  && ((min_y <=? y point)%float && (y point <=? max_y)%float).

(** The [for vertex in obj1.data.vertices] loop of [collision_check_objects],
    with its [return True] at the first vertex inside the area. *)
Fixpoint any_vertex_within (m : Matrix) (area : Area) (vertices : list Vector) : bool :=
  match vertices with
  | [] => false
  | vertex :: rest =>
      let world_vertex := matmul_vec m vertex in
      let '(area_min_x, area_max_x, area_min_y, area_max_y) := area in
      if is_point_within_xy_area world_vertex area_min_x area_max_x area_min_y area_max_y
      then true
      else any_vertex_within m area rest
  end.

(** [collision_check_objects(obj1, obj2)] *)
Definition collision_check_objects (obj1 obj2 : pyref) : Py World bool :=
  match obj1 with
  | None => ret false
  | Some _ =>
      let* t := getattr obj1 type in
      if is_mesh t then
        let* _ := update_from_editmode obj1 in
        let* area := get_world_bounding_box_xy obj2 in
        let* vertices := getattr obj1 data_vertices in
        let* m := getattr obj1 matrix_world in
        ret (any_vertex_within m area vertices)
      else ret false
  end.

(** The [while check1 or check2] loop of [collision_check_scene], run for at
    most [fuel] iterations. *)
Fixpoint rejection_loop (fuel : nat) (workpiece vest panda_leg : pyref) (config : Config)
    (check1 check2 : bool) : Py World unit :=
  if check1 || check2 then
    match fuel with
    | O => fun _ => OutOfFuel
    | S fuel' =>
        let* workpiece := randomize_workpiece workpiece config in
        let* check1 := collision_check_objects workpiece vest in
        let* check2 := collision_check_objects workpiece panda_leg in
        rejection_loop fuel' workpiece vest panda_leg config check1 check2
    end
  else ret tt.

(** [collision_check_scene(workpiece, config)] *)
Definition collision_check_scene (fuel : nat) (workpiece : pyref) (config : Config) : Py World unit :=
  let* vest := objects_get "Ch17_Vest" in
  let* panda_leg := objects_get "Link-0" in
  let* check1 := collision_check_objects workpiece vest in
  let* check2 := collision_check_objects workpiece panda_leg in
  rejection_loop fuel workpiece vest panda_leg config check1 check2.

(** ** The program: safety audit *)

(** [get_evaluated_vertices_in_world_space(obj)]; the result is [None] for
    an object that is not a mesh. *)
Definition get_evaluated_vertices_in_world_space (obj : pyref) : Py World (option (list Vector)) :=
  let* t := getattr obj type in
  if negb (is_mesh t) then ret None
  else
    let* _ := view_layer_update in
    let* vertices := getattr obj evaluated_vertices in
    let* m := getattr obj matrix_world in
    ret (Some (map (matmul_vec m) vertices)).

(** The [for v2 in obj2_vertices] loop. *)
Fixpoint closest_to_vertex (v1 : Vector) (obj2_vertices : list Vector) (min_distance : float) : float :=
  match obj2_vertices with
  | [] => min_distance
  | v2 :: rest =>
      let distance := vec_length (vec_sub v1 v2) in
      closest_to_vertex v1 rest (if (distance <? min_distance)%float then distance else min_distance)
  end.

(** The [for v1 in obj1_vertices] loop; iterating over [None] is a
    [TypeError]. *)
Fixpoint closest_over_vertices (obj1_vertices : list Vector) (obj2_vertices : option (list Vector))
    (min_distance : float) : exn + float :=
  match obj1_vertices with
  | [] => inr min_distance
  | v1 :: rest =>
      match obj2_vertices with
      | None => inl TypeError
      | Some vs2 => closest_over_vertices rest obj2_vertices (closest_to_vertex v1 vs2 min_distance)
      end
  end.

(** [not obj1 or not obj2 or obj1.type != 'MESH' or obj2.type != 'MESH'] *)
Definition absent_or_not_mesh (obj1 obj2 : pyref) : Py World bool :=
  match obj1, obj2 with
  | None, _ => ret true
  | Some _, None => ret true
  | Some _, Some _ =>
      let* t1 := getattr obj1 type in
      if negb (is_mesh t1) then ret true
      else
        let* t2 := getattr obj2 type in
        ret (negb (is_mesh t2))
  end.

(** [find_closest_distance_between_objects(obj1, obj2)]; the result is
    [None] or a float. *)
Definition find_closest_distance_between_objects (obj1 obj2 : pyref) : Py World (option float) :=
  let* refuse := absent_or_not_mesh obj1 obj2 in
  if refuse then ret None
  else
    let* obj1_vertices := get_evaluated_vertices_in_world_space obj1 in
    let* obj2_vertices := get_evaluated_vertices_in_world_space obj2 in
    let min_distance := float_inf in
    match obj1_vertices with
    | None => raise TypeError
    | Some vs1 =>
        let* min_distance := lift (closest_over_vertices vs1 obj2_vertices min_distance) in
        ret (Some min_distance)
    end.

(** [safety_check(config)]; [None < threshold] is a [TypeError]. *)
Definition safety_check (config : Config) : Py World (Z * float) :=
  let* hand := objects_get "Hand" in
  let* gloves := objects_get "Gloves" in
  let* min_distance := find_closest_distance_between_objects hand gloves in
  match min_distance with
  | None => raise TypeError
  | Some d =>
      let violation := if (d <? SafetyZone_Distance config)%float then 1 else 0 in
      ret (violation, d)
  end.

End Placement.

(** ** The program: dataset log *)

(** [s.split(sep)] for a separator of one character. *)
Fixpoint split (sep : ascii) (s : string) : list string :=
  match s with
  | EmptyString => [EmptyString]
  | String c s' =>
      if Ascii.eqb c sep then EmptyString :: split sep s'
      else
        match split sep s' with
        | part :: parts => String c part :: parts
        | [] => [String c EmptyString]
        end
  end.

(** [xs[k]]: [IndexError] when [k] is out of range. *)
Definition index {A : Type} (xs : list A) (k : nat) : exn + A :=
  match nth_error xs k with
  | Some a => inr a
  | None => inl IndexError
  end.

(** The ASCII characters that [int()] skips around a number: tab, line
    feed, vertical tab, form feed, carriage return and space. *)
Definition is_space (c : ascii) : bool :=
  let n := nat_of_ascii c in
  ((9 <=? n)%nat && (n <=? 13)%nat) || (n =? 32)%nat.

Fixpoint lstrip (s : list ascii) : list ascii :=
  match s with
  | c :: s' => if is_space c then lstrip s' else s
  | [] => []
  end.

Definition strip (s : list ascii) : list ascii := rev (lstrip (rev (lstrip s))).

Definition digit_value (c : ascii) : option Z :=
  let n := nat_of_ascii c in
  if ((48 <=? n)%nat && (n <=? 57)%nat) then Some (Z.of_nat n - 48) else None.

(** The value of a string of decimal digits after the digits of [acc]. *)
Fixpoint digits_value (acc : Z) (s : list ascii) : option Z :=
  match s with
  | [] => Some acc
  | c :: s' =>
      match digit_value c with
      | Some d => digits_value (10 * acc + d) s'
      | None => None
      end
  end.

Definition unsigned_value (s : list ascii) : option Z :=
  match s with
  | [] => None
  | _ :: _ => digits_value 0 s
  end.

(** [int(s)] on a string of ASCII characters: surrounding white space, an
    optional sign, decimal digits; anything else is a [ValueError].  Digit
    separators [_] are left out: the argument comes out of [split('_')].
    Digits and spaces beyond ASCII, which [int()] accepts as well, and its
    limit of 4300 digits are not modelled. *)
Definition py_int (s : string) : exn + Z :=
  let body := strip (list_ascii_of_string s) in
  let parsed :=
    match body with
    | "-"%char :: digits => option_map Z.opp (unsigned_value digits)
    | "+"%char :: digits => unsigned_value digits
    | _ => unsigned_value body
    end in
  match parsed with
  | Some n => inr n
  | None => inl ValueError
  end.

(** [str(n)] for an [int]. *)
Definition str_int (n : Z) : string := NilZero.string_of_int (Z.to_int n).

(** [s] with [0]s in front up to [width] characters. *)
Definition zfill (width : nat) (s : string) : string :=
  String.append (string_of_list_ascii (repeat "0"%char (width - String.length s))) s.

(** [f"{i:06d}"]: at least six characters, the sign first and [0]s after it. *)
Definition format_06d (i : Z) : string :=
  let digits := NilZero.string_of_uint (N.to_uint (Z.abs_N i)) in
  if (i <? 0)%Z then String.append "-" (zfill 5 digits) else zfill 6 digits.

(** [str(x)] for a [float], as the csv writer puts it in a cell: Python's
    shortest round-trip representation, an interface here. *)
Class FloatRepr : Type :=
  float_repr : float -> string.

(** [rendered_data.csv], as the rows that [csv.reader] yields from it; a
    file is empty exactly when it has no row.  [None]: the file does not
    exist. *)
Definition CsvFile : Type := option (list (list string)).

(** [f"image_{i:06d}.jpg"] *)
Definition image_name (i : Z) : string :=
  String.append "image_" (String.append (format_06d i) ".jpg").

Section Log.
Context `{FloatRepr}.

(** The index continued from the last row of the log:
    [int(last_row[0].split('_')[1].split('.')[0]) + 1]. *)
Definition next_image_num (rows : list (list string)) : exn + Z :=
  match index rows (List.length rows - 1) with
  | inl e => inl e
  | inr last_row =>
      match index last_row 0 with
      | inl e => inl e
      | inr name =>
          match index (split "_" name) 1 with
          | inl e => inl e
          | inr tail =>
              match index (split "." tail) 0 with
              | inl e => inl e
              | inr digits =>
                  match py_int digits with
                  | inl e => inl e
                  | inr last_image_num => inr (last_image_num + 1)
                  end
              end
          end
      end
  end.

(** [log_to_csv(violation, distance, i, config)]; the state is the log
    file in the configured output directory. *)
Definition log_to_csv (violation : Z) (distance : float) (i : Z) : Py CsvFile unit :=
  let* file := get_state in
  let* i :=
    match file with
    | Some rows =>
        if (1 <? List.length rows)%nat then lift (next_image_num rows)
        else ret i
    | None => ret i
    end in
  let image_name := image_name i in
  (* open(csv_file, mode="a") creates the file when it is missing *)
  let rows := match file with Some rows => rows | None => [] end in
  let rows :=
    match rows with
    | [] => [["ImageName"; "Violation"; "Distance"]]
    | _ :: _ => rows
    end in
  let rows := rows ++ [[image_name; str_int violation; float_repr distance]] in
  modify (fun _ => Some rows).

End Log.

(** ** Vocabulary of the statements *)

(** [a] is a number: not a NaN. *)
Definition number (a : float) : Prop := (a =? a)%float = true.

Section Vocabulary.
Context `{Depsgraph}.

(** The object named [name] is in the scene and is a mesh. *)
Definition is_mesh_object (w : World) (name : string) : bool :=
  match objects w !! name with
  | Some o => is_mesh (type o)
  | None => false
  end.

(** The reference that [bpy.data.objects.get(name)] gives. *)
Definition lookup_ref (w : World) (name : string) : pyref :=
  match objects w !! name with
  | Some _ => Some name
  | None => None
  end.

(** The evaluated vertices of [o] (pose and modifiers applied) in world
    space, for the up-to-date world matrix of [o]. *)
Definition world_vertices (o : Object) : list Vector :=
  map (matmul_vec (matrix_world (evaluate_object o))) (evaluated_vertices o).

(** The distances of all pairs of one vertex of [vs1] and one of [vs2]. *)
Definition pair_distances (vs1 vs2 : list Vector) : list float :=
  flat_map (fun v1 => map (fun v2 => vec_length (vec_sub v1 v2)) vs2) vs1.

(** [np.random.uniform] accepts each of the four ranges of the workpiece. *)
Definition finite_ranges (config : Config) : bool :=
  finite_range (SizeRange_x config) && finite_range (SizeRange_y config)
  && (finite_range (PositionRange_x config) && finite_range (PositionRange_y config)).

(** The transform that [randomize_workpiece] writes for the numbers that the
    random generator [rs] produces: scale and position from the configured
    ranges, a rotation about z of 0 to 360 degrees, each as it is stored in
    single precision. *)
Definition placed (config : Config) (rs : nat -> float) (o : Object) : Object :=
  let sx := (fst (SizeRange_x config)
             + (snd (SizeRange_x config) - fst (SizeRange_x config)) * rs 0%nat)%float in
  let sy := (fst (SizeRange_y config)
             + (snd (SizeRange_y config) - fst (SizeRange_y config)) * rs 1%nat)%float in
  let deg := (0 + (360 - 0) * rs 2%nat)%float in
  let lx := (fst (PositionRange_x config)
             + (snd (PositionRange_x config) - fst (PositionRange_x config)) * rs 3%nat)%float in
  let ly := (fst (PositionRange_y config)
             + (snd (PositionRange_y config) - fst (PositionRange_y config)) * rs 4%nat)%float in
  mkObject (type o)
           (mkVector (stored lx) (stored ly) (z (location o)))
           (mkVector (x (rotation_euler o)) (y (rotation_euler o)) (stored (radians deg)))
           (mkVector (stored sx) (stored sy) 1%float)
           (matrix_world o) (bound_box o) (data_vertices o) (edit_vertices o)
           (evaluated_vertices o).

(** The objects of the scene once [collision_check_objects] has run for the
    mesh [n]: the edit-mode mesh of [n] written back, every world matrix up
    to date. *)
Definition checked_objects (n : string) (objs : gmap string Object) : gmap string Object :=
  evaluate_object <$> alter flush_editmode n objs.

(** The bounding area that [get_world_bounding_box_xy] computes for [obj] in
    a scene whose world matrices are up to date. *)
Definition bounding_area (objs : gmap string Object) (obj : pyref) : exn + Area :=
  match obj with
  | None => inl AttributeError
  | Some n =>
      match objs !! n with
      | None => inl ReferenceError
      | Some o =>
          let bbox_corners := map (matmul_vec (matrix_world o)) (bound_box o) in
          match py_min (map x bbox_corners), py_max (map x bbox_corners),
                py_min (map y bbox_corners), py_max (map y bbox_corners) with
          | inr min_x, inr max_x, inr min_y, inr max_y => inr (min_x, max_x, min_y, max_y)
          | inl e, _, _, _ | _, inl e, _, _ | _, _, inl e, _ | _, _, _, inl e => inl e
          end
      end
  end.

(** Whether a vertex of the mesh [n] is within the bounding area of [obj2],
    in a scene whose world matrices and meshes are up to date. *)
Definition probe_hits (objs : gmap string Object) (n : string) (obj2 : pyref) : exn + bool :=
  match bounding_area objs obj2 with
  | inl e => inl e
  | inr area =>
      match objs !! n with
      | Some o => inr (any_vertex_within (matrix_world o) area (data_vertices o))
      | None => inl ReferenceError
      end
  end.

(** The state that a returning [collision_check_objects] leaves. *)
Definition checked_state (obj1 : pyref) (w : World) : World :=
  match obj1 with
  | None => w
  | Some n =>
      match objects w !! n with
      | Some o =>
          if is_mesh (type o) then mkWorld (checked_objects n (objects w)) (random_state w)
          else w
      | None => w
      end
  end.

(** The scene has the same object names in [w'] as in [w]. *)
Definition same_names (w w' : World) : Prop :=
  forall k, is_Some (objects w' !! k) <-> is_Some (objects w !! k).

(** The two checks of [collision_check_scene], one after the other. *)
Definition both_checks (workpiece vest panda_leg : pyref) : Py World (bool * bool) :=
  let* check1 := collision_check_objects workpiece vest in
  let* check2 := collision_check_objects workpiece panda_leg in
  ret (check1, check2).

(** Both checks return and one of them is [True]: the workpiece collides
    with an obstacle. *)
Definition collides (workpiece vest panda_leg : pyref) (w : World) : bool :=
  match both_checks workpiece vest panda_leg w with
  | Return ((check1, check2), _) => check1 || check2
  | _ => false
  end.

(** The placement that [randomize_workpiece] draws in [w] collides. *)
Definition resample_collides (workpiece vest panda_leg : pyref) (config : Config)
    (w : World) : bool :=
  match randomize_workpiece workpiece config w with
  | Return (workpiece', w') => collides workpiece' vest panda_leg w'
  | _ => false
  end.

(** The numbers of a random generator are in [0, 1). *)
Definition unit_stream (rs : nat -> float) : Prop :=
  forall k, (0 <=? rs k)%float = true /\ (rs k <? 1)%float = true.

(** Resampling the workpiece [n] in [objs'] gives the scenes that resampling
    it in [objs] gives. *)
Definition same_resamples (config : Config) (n : string) (objs objs' : gmap string Object) : Prop :=
  forall rs, checked_objects n (alter (placed config rs) n objs')
             = checked_objects n (alter (placed config rs) n objs).

(** The [if distance < min_distance: min_distance = distance] update, over
    a list of distances. *)
Definition running_min (ds : list float) (m : float) : float :=
  fold_left (fun m d => if (d <? m)%float then d else m) ds m.

(** [sep] does not occur in [s]. *)
Definition absent (sep : ascii) (s : string) : Prop :=
  ~ In sep (list_ascii_of_string s).

(** Every character of [s] is a decimal digit. *)
Definition all_digits (s : list ascii) : Prop :=
  Forall (fun c => digit_value c <> None) s.

End Vocabulary.

(** ** Worked scenes *)

(** A dependency graph for objects without rotation and parents: the world
    matrix scales and translates. *)
Definition rigid : Depsgraph :=
  fun loc _ scl =>
    mkMatrix (mkRow (x scl) 0 0 (x loc))
             (mkRow 0 (y scl) 0 (y loc))
             (mkRow 0 0 (z scl) (z loc))
             (mkRow 0 0 0 1).

Definition identity_matrix : Matrix :=
  mkMatrix (mkRow 1 0 0 0) (mkRow 0 1 0 0) (mkRow 0 0 1 0) (mkRow 0 0 0 1).

(** The corners of the box [-1, 1] x [-1, 1] x [0, 2]. *)
Definition unit_box : list Vector :=
  [ mkVector (-1) (-1) 0; mkVector (-1) (-1) 2; mkVector (-1) 1 2; mkVector (-1) 1 0;
    mkVector 1 (-1) 0; mkVector 1 (-1) 2; mkVector 1 1 2; mkVector 1 1 0 ].

(** A mesh at [loc], not rotated, not scaled, outside edit mode and without
    modifiers. *)
Definition mesh_at (loc : Vector) (vertices : list Vector) : Object :=
  mkObject MESH loc (mkVector 0 0 0) (mkVector 1 1 1) identity_matrix unit_box
           vertices None vertices.

(** A workpiece of one vertex at the origin, the vest around the origin, the
    leg around (5, 5). *)
Definition demo_objects : gmap string Object :=
  {[ "workpiece" := mesh_at (mkVector 0 0 0) [mkVector 0 0 0];
     "Ch17_Vest" := mesh_at (mkVector 0 0 0) unit_box;
     "Link-0" := mesh_at (mkVector 5 5 0) unit_box ]}.

(** The generator draws [0.5] five times, then [0.25]. *)
Definition demo_stream (k : nat) : float :=
  if (k <? 5)%nat then 0.5%float else 0.25%float.

Definition demo_world : World := mkWorld demo_objects demo_stream.

(** Workpiece positions in [0, 10] x [0, 10], scale 1. *)
Definition demo_config : Config :=
  mkConfig (1, 1)%float (1, 1)%float (0, 10)%float (0, 10)%float 5%float.

(** The scene that the placement leaves in [demo_world]. *)
Definition demo_resolved : World :=
  match @collision_check_scene rigid 5 (Some "workpiece") demo_config demo_world with
  | Return (_, w') => w'
  | _ => demo_world
  end.

(** The workpiece can only be placed at the origin, inside the vest. *)
Definition stuck_config : Config :=
  mkConfig (1, 1)%float (1, 1)%float (0, 0)%float (0, 0)%float 5%float.

(** A scene of a hand and gloves, each a mesh of the given vertices. *)
Definition hand_gloves (hand_vertices gloves_vertices : list Vector) : World :=
  mkWorld {[ "Hand" := mesh_at (mkVector 0 0 0) hand_vertices;
             "Gloves" := mesh_at (mkVector 0 0 0) gloves_vertices ]}
          demo_stream.

(** The hand has one vertex at the origin, the gloves one at (3, 4, 0). *)
Definition safety_world : World := hand_gloves [mkVector 0 0 0] [mkVector 3 4 0].

(** The only vertex of the gloves has no number as its first coordinate. *)
Definition nan_only_world : World := hand_gloves [mkVector 0 0 0] [mkVector nan 0 0].

(** The gloves are [2^70] away from the hand along x. *)
Definition far_apart_world : World :=
  hand_gloves [mkVector 0 0 0] [mkVector 0x1p+70 0 0].

(** The gloves are missing. *)
Definition hand_only : World :=
  mkWorld {[ "Hand" := mesh_at (mkVector 0 0 0) [mkVector 0 0 0] ]} demo_stream.

(** The texts of the floats that the worked logs hold. *)
Definition demo_float_repr : FloatRepr :=
  fun d => if (d =? 5)%float then "5.0" else if (d =? 2.5)%float then "2.5" else "inf".

Definition demo_log : list (list string) :=
  [ ["ImageName"; "Violation"; "Distance"];
    ["image_000040.jpg"; "0"; "5.0"];
    ["image_000041.jpg"; "1"; "2.5"] ].

(** ** More of the program: the manipulator *)



(** ** Vocabulary of the further statements *)





(** The generator [rs] after [k] of its numbers are drawn. *)
Definition drop_draws (k : nat) (rs : nat -> float) : nat -> float :=
  Nat.iter k (fun r j => r (S j)) rs.




(** A large flat plate around the origin, with its vertices at its corners,
    and a small box at the origin with its vertices at its corners. *)
Definition plate_corners : list Vector :=
  [ mkVector (-10) (-10) 0; mkVector (-10) 10 0; mkVector 10 (-10) 0; mkVector 10 10 0 ].

Definition plate_and_box : World :=
  mkWorld {[ "plate" := mkObject MESH (mkVector 0 0 0) (mkVector 0 0 0) (mkVector 1 1 1)
                          identity_matrix plate_corners plate_corners None plate_corners;
             "box" := mesh_at (mkVector 0 0 0) unit_box ]} demo_stream.

(** The leg is missing from the scene. *)
Definition no_leg_world : World :=
  mkWorld {[ "workpiece" := mesh_at (mkVector 0 0 0) [mkVector 0 0 0];
             "Ch17_Vest" := mesh_at (mkVector 0 0 0) unit_box ]} demo_stream.

(** The workpiece starts at (3, 3), clear of the vest and of the leg. *)
Definition free_world : World :=
  mkWorld {[ "workpiece" := mesh_at (mkVector 3 3 0) [mkVector 0 0 0];
             "Ch17_Vest" := mesh_at (mkVector 0 0 0) unit_box;
             "Link-0" := mesh_at (mkVector 5 5 0) unit_box ]} demo_stream.

(** The workpiece is an empty, not a mesh, and sits inside the vest. *)
Definition empty_workpiece_world : World :=
  mkWorld {[ "workpiece" := mkObject EMPTY (mkVector 0 0 0) (mkVector 0 0 0) (mkVector 1 1 1)
                              identity_matrix unit_box [mkVector 0 0 0] None [mkVector 0 0 0];
             "Ch17_Vest" := mesh_at (mkVector 0 0 0) unit_box ]} demo_stream.

(** One turn of the loop of [collision_check_scene]: a new placement, then
    the two checks. *)
Definition resample_and_check `{Depsgraph} (workpiece vest panda_leg : pyref)
    (config : Config) : Py World (bool * bool) :=
  let* workpiece := randomize_workpiece workpiece config in
  both_checks workpiece vest panda_leg.

(** What the placement code keeps of an object: its type, its bounding box,
    its edit-mode and evaluated meshes, its height and its rotations about x
    and y; and, unless it is the object that is [placed], its whole
    transform and its mesh. *)
Definition kept (is_placed : Prop) (o o' : Object) : Prop :=
  type o' = type o /\ bound_box o' = bound_box o
  /\ edit_vertices o' = edit_vertices o /\ evaluated_vertices o' = evaluated_vertices o
  /\ z (location o') = z (location o)
  /\ x (rotation_euler o') = x (rotation_euler o)
  /\ y (rotation_euler o') = y (rotation_euler o)
  /\ (~ is_placed ->
      location o' = location o /\ rotation_euler o' = rotation_euler o
      /\ scale o' = scale o /\ data_vertices o' = data_vertices o).

(** [w'] has the objects of [w], each with what the placement of
    [workpiece] keeps of it. *)
Definition framed (workpiece : pyref) (w w' : World) : Prop :=
  forall k, option_Forall2 (kept (workpiece = Some k)) (objects w !! k) (objects w' !! k).

(** The hand and the gloves touch: they share the vertex (1, 2, 3). *)
Definition touching_world : World :=
  hand_gloves [mkVector 0 0 0; mkVector 1 2 3] [mkVector 1 2 3; mkVector 9 9 9].

(** A vertex of the gloves has no number as a coordinate. *)
Definition nan_gloves_world : World :=
  hand_gloves [mkVector 0 0 0] [mkVector nan 0 0; mkVector 3 4 0].

(** ** More of the program: the log as text *)

(** The header row of the log. *)
Definition header_row : list string := ["ImageName"; "Violation"; "Distance"].

(** [rendered_data.csv] as the text that [log_to_csv] appends to: the rows
    of the lines that are complete and, when the text does not end with a
    line end, the open last line, as the cells before its last cell and its
    last cell. *)
Record LogText : Type := mkLogText {
  complete_rows : list (list string);
  open_row : option (list string * string)
}.

(** The rows that [csv.reader] yields. *)
Definition read_rows (text : LogText) : list (list string) :=
  complete_rows text
  ++ match open_row text with
     | Some (cells, last) => [cells ++ [last]]
     | None => []
     end.

(** [csv.writer(file).writerow(row)] on a file opened for appending: the
    text of the row and a line end are added to the end of the text, so that
    a row written after an open line continues the last cell of that line
    (for cells that the writer does not quote, as those that the program
    writes). *)
Definition writerow (row : list string) (text : LogText) : LogText :=
  match open_row text with
  | None => mkLogText (complete_rows text ++ [row]) None
  | Some (cells, last) =>
      match row with
      | [] => mkLogText (complete_rows text ++ [cells ++ [last]]) None
      | first :: rest =>
          mkLogText (complete_rows text ++ [cells ++ String.append last first :: rest]) None
      end
  end.

Module Text.
Section Log.
Context `{FloatRepr}.

(** [log_to_csv(violation, distance, i, config)] on the log as text;
    [None]: the file does not exist.  [file.tell() == 0] holds of the file
    opened for appending exactly when the file is empty. *)
Definition log_to_csv (violation : Z) (distance : float) (i : Z)
    : Py (option LogText) unit :=
  let* file := get_state in
  let* i :=
    match file with
    | Some text =>
        let rows := read_rows text in
        if (1 <? List.length rows)%nat then lift (next_image_num rows)
        else ret i
    | None => ret i
    end in
  let image_name := image_name i in
  (* open(csv_file, mode="a") creates the file when it is missing *)
  let text := match file with Some text => text | None => mkLogText [] None end in
  let text :=
    match read_rows text with
    | [] => writerow ["ImageName"; "Violation"; "Distance"] text
    | _ :: _ => text
    end in
  modify (fun _ => Some (writerow [image_name; str_int violation; float_repr distance] text)).


End Log.
End Text.


(** Every character of [s] is an ASCII character. *)
Definition ascii_text (s : string) : Prop :=
  List.Forall (fun c => (nat_of_ascii c < 128)%nat) (list_ascii_of_string s).



(** ** More of the program: loading the scene *)

(** An object of the library file as [load_scene_from_blend] reads it:
    [obj.name] and, when [obj.parent] is an object, [obj.parent.name]. *)
Record Loaded : Type := mkLoaded { obj_name : string; parent_name : option string }.

(** [obj.parent and obj.parent.name == name] *)
Definition parent_is (name : string) (obj : Loaded) : bool :=
  match parent_name obj with
  | Some p => String.eqb p name
  | None => false
  end.

(** [loaded_objects[key].append(obj)]; [None] is the [KeyError] of a key
    that the dictionary does not hold. *)
Definition group_append (key : string) (obj : Loaded)
    (loaded_objects : gmap string (list Loaded)) : option (gmap string (list Loaded)) :=
  match loaded_objects !! key with
  | Some group => Some (<[key := group ++ [obj]]> loaded_objects)
  | None => None
  end.

(** The body of the loop over [data_to.objects]. *)
Definition categorize (obj : Loaded) (loaded_objects : gmap string (list Loaded))
    : option (gmap string (list Loaded)) :=
  if parent_is "Worker" obj then group_append "Worker" obj loaded_objects
  else if parent_is "Panda" obj then group_append "Panda" obj loaded_objects
  else Some (<[obj_name obj := [obj]]> loaded_objects).

Fixpoint categorize_each (objs : list Loaded) (loaded_objects : gmap string (list Loaded))
    : option (gmap string (list Loaded)) :=
  match objs with
  | [] => Some loaded_objects
  | obj :: rest =>
      match categorize obj loaded_objects with
      | Some loaded_objects' => categorize_each rest loaded_objects'
      | None => None
      end
  end.

(** [load_scene_from_blend(file_path, link)], as the dictionary it returns
    for the objects [data_to.objects] of the file, in the order of the loop.
    Adding the objects to [bpy.data.objects] and to the collection is not
    part of this model. *)
Definition load_scene_from_blend (data_to_objects : list Loaded)
    : option (gmap string (list Loaded)) :=
  categorize_each data_to_objects (<["Worker" := []]> (<["Panda" := []]> ∅)).

(** [obj] is stored under its own name: its parent is neither ["Worker"]
    nor ["Panda"]. *)
Definition standalone (obj : Loaded) : Prop :=
  parent_is "Worker" obj = false /\ parent_is "Panda" obj = false.

(** What one round of the loop does to the entry of [key]. *)
Definition group_step (key : string) (group : option (list Loaded)) (obj : Loaded)
    : option (list Loaded) :=
  if parent_is "Worker" obj then
    if String.eqb key "Worker" then option_map (fun l => l ++ [obj]) group else group
  else if parent_is "Panda" obj then
    if String.eqb key "Panda" then option_map (fun l => l ++ [obj]) group else group
  else if String.eqb key (obj_name obj) then Some [obj] else group.

(** A library file: the worker armature with two children, the robot with
    one, and a table. *)
Definition demo_file : list Loaded :=
  [ mkLoaded "Gloves" (Some "Worker"); mkLoaded "Gripper" (Some "Panda");
    mkLoaded "Table" None; mkLoaded "Worker" None; mkLoaded "WorkerBody" (Some "Worker") ].

(** The same file without the armature and the robot themselves. *)
Definition children_file : list Loaded :=
  [ mkLoaded "Gloves" (Some "Worker"); mkLoaded "Gripper" (Some "Panda");
    mkLoaded "Table" None; mkLoaded "WorkerBody" (Some "Worker") ].

(** ** More of the program: cleaning the scene *)

(** The scene together with the selection: the names of the selected
    objects, and the names of the objects that cannot be selected (those
    with [hide_select] set or hidden in the view layer).  Every object of
    [bpy.data.objects] is taken to be in the scene and its view layer, as
    the objects that [load_scene_from_blend] appends are. *)
Record Scene : Type := mkScene {
  scene_world : World;
  selected : gset string;
  unselectable : gset string
}.

(** [bpy.ops.object.select_all(action='DESELECT')] *)
Definition select_all_deselect : Py Scene unit :=
  modify (fun s => mkScene (scene_world s) ∅ (unselectable s)).

(** [obj.select_set(True)]: without effect on an object that cannot be
    selected. *)
Definition select_set (name : string) : Py Scene unit :=
  modify (fun s =>
            if bool_decide (name ∈ unselectable s) then s
            else mkScene (scene_world s) ({[ name ]} ∪ selected s) (unselectable s)).

(** [obj.type not in {'CAMERA', 'LIGHT'}] *)
Definition not_camera_or_light (t : ObjType) : bool :=
  match t with
  | CAMERA | LIGHT => false
  | _ => true
  end.

(** The loop over [bpy.context.scene.objects]. *)
Fixpoint select_each (objs : list (string * Object)) : Py Scene unit :=
  match objs with
  | [] => ret tt
  | (name, obj) :: rest =>
      let* _ := if not_camera_or_light (type obj) then select_set name else ret tt in
      select_each rest
  end.

(** [bpy.ops.object.delete()]: the selected objects leave the scene and
    [bpy.data.objects]. *)
Definition object_delete : Py Scene unit :=
  modify (fun s =>
            mkScene (set_objects (filter (fun entry : string * Object => entry.1 ∉ selected s))
                                 (scene_world s))
                    ∅ (unselectable s)).

(** [cleanup_scene()] *)
Definition cleanup_scene : Py Scene unit :=
  let* _ := select_all_deselect in
  let* scene_objects := (fun s => Return (map_to_list (objects (scene_world s)), s)) in
  let* _ := select_each scene_objects in
  object_delete.

(** What [cleanup_scene] leaves of the object [name]: the object itself when
    it is a camera or a light or cannot be selected. *)
Definition surviving (locked : gset string) (name : string) (obj : option Object)
    : option Object :=
  match obj with
  | Some o =>
      if not_camera_or_light (type o) && negb (bool_decide (name ∈ locked)) then None
      else Some o
  | None => None
  end.

(** The hand and the gloves under a camera; the camera is selected. *)
Definition camera_scene : Scene :=
  mkScene
    (set_objects
       (insert "Camera" (mkObject CAMERA (mkVector 0 0 9) (mkVector 0 0 0) (mkVector 1 1 1)
                                  identity_matrix [] [] None []))
       safety_world)
    {[ "Camera" ]} ∅.

(** The same scene with a hand that cannot be selected. *)
Definition locked_hand_scene : Scene :=
  mkScene (scene_world camera_scene) ∅ {[ "Hand" ]}.

(** ** More of the program: the worker's pose *)






















(** * Properties *)

(** ** The order of binary64 numbers *)

(** The comparisons of primitive floats are those of their specification
    [spec_float]; the facts below are proved there by cases and carried
    over. *)
Module FloatOrder.

Ltac compare_cases :=
  repeat match goal with
  | |- context [Z.compare ?a ?b] => destruct (Z.compare_spec a b)
  | Hc : context [Z.compare ?a ?b] |- _ => destruct (Z.compare_spec a b)
  | |- context [Pos.compare_cont Eq ?a ?b] =>
      change (Pos.compare_cont Eq a b) with (Pos.compare a b);
      destruct (Pos.compare_spec a b)
  | Hc : context [Pos.compare_cont Eq ?a ?b] |- _ =>
      change (Pos.compare_cont Eq a b) with (Pos.compare a b) in Hc;
      destruct (Pos.compare_spec a b)
  end.

Ltac by_cases :=
  unfold SFltb, SFleb, SFeqb, SFcompare;
  intros;
  repeat match goal with
  | f : spec_float |- _ => destruct f
  | b : bool |- _ => destruct b
  end;
  simpl in *; try congruence; try reflexivity;
  compare_cases; simpl in *; subst; try congruence; try reflexivity; try lia.

Lemma SFltb_irrefl (a : spec_float) : SFltb a a = false.
Proof. by_cases. Qed.

Lemma SFltb_trans (a b c : spec_float) :
  SFltb a b = true -> SFltb b c = true -> SFltb a c = true.
Proof. by_cases. Qed.

Lemma SFleb_trans (a b c : spec_float) :
  SFleb a b = true -> SFleb b c = true -> SFleb a c = true.
Proof. by_cases. Qed.

Lemma SFltb_leb (a b : spec_float) : SFltb a b = true -> SFleb a b = true.
Proof. by_cases. Qed.

Lemma SFleb_total (a b : spec_float) :
  SFeqb a a = true -> SFeqb b b = true -> SFltb a b = false -> SFleb b a = true.
Proof. by_cases. Qed.

Lemma SFeqb_leb (a b : spec_float) : SFeqb a b = true -> SFleb a b = true.
Proof. by_cases. Qed.

Lemma SFeqb_sym (a b : spec_float) : SFeqb a b = true -> SFeqb b a = true.
Proof. by_cases. Qed.

Lemma SFeqb_ltb (a b : spec_float) : SFeqb a b = true -> SFltb a b = false.
Proof. by_cases. Qed.


Lemma SFltb_number (a b : spec_float) :
  SFltb a b = true -> SFeqb a a = true /\ SFeqb b b = true.
Proof. by_cases; split; by_cases. Qed.

Lemma SFleb_not_ltb (a b : spec_float) : SFleb a b = true -> SFltb b a = false.
Proof. by_cases. Qed.

Lemma SFltb_leb_trans (a b c : spec_float) :
  SFltb a b = true -> SFleb b c = true -> SFltb a c = true.
Proof. by_cases. Qed.

Lemma SFltb_infinity (a : spec_float) : SFltb (S754_infinity false) a = false.
Proof. by_cases. Qed.


Lemma Prim2SF_infinity : Prim2SF infinity = S754_infinity false.
Proof. reflexivity. Qed.

Local Open Scope float_scope.

Lemma ltb_irrefl (a : float) : (a <? a) = false.
Proof. rewrite FloatAxioms.ltb_spec. apply SFltb_irrefl. Qed.

Lemma ltb_trans (a b c : float) : (a <? b) = true -> (b <? c) = true -> (a <? c) = true.
Proof. rewrite (FloatAxioms.ltb_spec a b), (FloatAxioms.ltb_spec b c), (FloatAxioms.ltb_spec a c). apply SFltb_trans. Qed.

Lemma leb_trans (a b c : float) : (a <=? b) = true -> (b <=? c) = true -> (a <=? c) = true.
Proof. rewrite (FloatAxioms.leb_spec a b), (FloatAxioms.leb_spec b c), (FloatAxioms.leb_spec a c). apply SFleb_trans. Qed.

Lemma ltb_leb (a b : float) : (a <? b) = true -> (a <=? b) = true.
Proof. rewrite FloatAxioms.ltb_spec, FloatAxioms.leb_spec. apply SFltb_leb. Qed.

Lemma leb_total (a b : float) :
  number a -> number b -> (a <? b) = false -> (b <=? a) = true.
Proof. unfold number. rewrite (FloatAxioms.eqb_spec a a), (FloatAxioms.eqb_spec b b), FloatAxioms.ltb_spec, FloatAxioms.leb_spec. apply SFleb_total. Qed.

Lemma leb_refl (a : float) : number a -> (a <=? a) = true.
Proof. unfold number. rewrite FloatAxioms.eqb_spec, FloatAxioms.leb_spec. apply SFeqb_leb. Qed.

Lemma eqb_leb (a b : float) : (a =? b) = true -> (a <=? b) = true.
Proof. rewrite FloatAxioms.eqb_spec, FloatAxioms.leb_spec. apply SFeqb_leb. Qed.

Lemma eqb_sym (a b : float) : (a =? b) = true -> (b =? a) = true.
Proof. rewrite (FloatAxioms.eqb_spec a b), (FloatAxioms.eqb_spec b a). apply SFeqb_sym. Qed.

Lemma eqb_ltb (a b : float) : (a =? b) = true -> (a <? b) = false.
Proof. rewrite FloatAxioms.eqb_spec, FloatAxioms.ltb_spec. apply SFeqb_ltb. Qed.


Lemma ltb_number (a b : float) : (a <? b) = true -> number a /\ number b.
Proof. unfold number. rewrite FloatAxioms.ltb_spec, (FloatAxioms.eqb_spec a a), (FloatAxioms.eqb_spec b b). apply SFltb_number. Qed.

Lemma leb_not_ltb (a b : float) : (a <=? b) = true -> (b <? a) = false.
Proof. rewrite FloatAxioms.leb_spec, FloatAxioms.ltb_spec. apply SFleb_not_ltb. Qed.

Lemma ltb_leb_trans (a b c : float) : (a <? b) = true -> (b <=? c) = true -> (a <? c) = true.
Proof.
  rewrite (FloatAxioms.ltb_spec a b), FloatAxioms.leb_spec, (FloatAxioms.ltb_spec a c).
  apply SFltb_leb_trans.
Qed.

Lemma ltb_infinity (a : float) : (infinity <? a) = false.
Proof. rewrite FloatAxioms.ltb_spec, Prim2SF_infinity. apply SFltb_infinity. Qed.


Lemma number_infinity : number infinity.
Proof. reflexivity. Qed.

End FloatOrder.

Import FloatOrder.

(** ** Running the modelled code *)

Section Running.
Context `{Depsgraph}.

Lemma getattr_Some {A : Type} (n : string) (o : Object) (field : Object -> A) (w : World) :
  objects w !! n = Some o -> getattr (Some n) field w = Return (field o, w).
Proof. intros Hn. unfold getattr. now rewrite Hn. Qed.

Lemma getattr_missing {A : Type} (n : string) (field : Object -> A) (w : World) :
  objects w !! n = None -> getattr (Some n) field w = Raise ReferenceError.
Proof. intros Hn. unfold getattr. now rewrite Hn. Qed.

Lemma objects_get_lookup_ref (n : string) (w : World) :
  objects_get n w = Return (lookup_ref w n, w).
Proof. unfold objects_get, lookup_ref. now destruct (objects w !! n). Qed.

Lemma evaluate_object_idem (o : Object) :
  evaluate_object (evaluate_object o) = evaluate_object o.
Proof. reflexivity. Qed.

Lemma lookup_evaluate_view_layer (w : World) (n : string) :
  objects (evaluate_view_layer w) !! n = evaluate_object <$> (objects w !! n).
Proof. unfold evaluate_view_layer, set_objects. simpl. apply lookup_fmap. Qed.

Lemma evaluate_view_layer_idem (w : World) :
  evaluate_view_layer (evaluate_view_layer w) = evaluate_view_layer w.
Proof.
  unfold evaluate_view_layer, set_objects. simpl. f_equal.
  rewrite <- map_fmap_compose. apply map_fmap_ext. intros. apply evaluate_object_idem.
Qed.

End Running.

(** ** The closed rectangle of [is_point_within_xy_area] *)

Section Area.
Local Open Scope float_scope.

(** C7. [is_point_within_xy_area] is true exactly when
    [min_x <= point.x <= max_x] and [min_y <= point.y <= max_y] (the
    comparisons are Python's on floats), so the rectangle is closed: a point
    whose [x] equals [min_x] or [max_x] of a rectangle ([min_x <= max_x]), with
    [y] in range, is inside, and likewise for [y]. *)
Theorem is_point_within_xy_area_closed (point : Vector) (min_x max_x min_y max_y : float) :
  (is_point_within_xy_area point min_x max_x min_y max_y = true <->
     (min_x <=? x point) = true /\ (x point <=? max_x) = true /\
     (min_y <=? y point) = true /\ (y point <=? max_y) = true)
  /\ ((min_x <=? max_x) = true ->
      (x point =? min_x) = true \/ (x point =? max_x) = true ->
      (min_y <=? y point) = true -> (y point <=? max_y) = true ->
      is_point_within_xy_area point min_x max_x min_y max_y = true)
  /\ ((min_y <=? max_y) = true ->
      (y point =? min_y) = true \/ (y point =? max_y) = true ->
      (min_x <=? x point) = true -> (x point <=? max_x) = true ->
      is_point_within_xy_area point min_x max_x min_y max_y = true).
Proof.
  assert (Hiff : is_point_within_xy_area point min_x max_x min_y max_y = true <->
     (min_x <=? x point) = true /\ (x point <=? max_x) = true /\
     (min_y <=? y point) = true /\ (y point <=? max_y) = true).
  { unfold is_point_within_xy_area. rewrite !andb_true_iff. tauto. }
  split; [exact Hiff | split].
  - intros Hbox [Hx | Hx] Hy1 Hy2; apply Hiff; repeat split; trivial.
    + apply eqb_leb, eqb_sym, Hx.
    + apply leb_trans with min_x; [apply eqb_leb, Hx | exact Hbox].
    + apply leb_trans with max_x; [exact Hbox | apply eqb_leb, eqb_sym, Hx].
    + apply eqb_leb, Hx.
  - intros Hbox [Hy | Hy] Hx1 Hx2; apply Hiff; repeat split; trivial.
    + apply eqb_leb, eqb_sym, Hy.
    + apply leb_trans with min_y; [apply eqb_leb, Hy | exact Hbox].
    + apply leb_trans with max_y; [exact Hbox | apply eqb_leb, eqb_sym, Hy].
    + apply eqb_leb, Hy.
Qed.

End Area.

(** ** The minimum of the pairwise distances *)

Section Distance.
Context `{Depsgraph}.
Local Open Scope float_scope.

Lemma running_min_cons (d : float) (ds : list float) (m : float) :
  running_min (d :: ds) m = running_min ds (if d <? m then d else m).
Proof. reflexivity. Qed.

Lemma running_min_cases (ds : list float) (m : float) :
  running_min ds m = m \/ In (running_min ds m) ds.
Proof.
  revert m. induction ds as [| d ds IH]; intros m.
  - now left.
  - rewrite running_min_cons.
    destruct (IH (if d <? m then d else m)) as [Heq | Hin].
    + rewrite Heq. destruct (d <? m); [right; now left | now left].
    + right. now right.
Qed.

Lemma running_min_lower_bound (ds : list float) (m : float) :
  number m -> (forall d, In d ds -> number d) ->
  (running_min ds m <=? m) = true /\
  (forall d, In d ds -> (running_min ds m <=? d) = true).
Proof.
  revert m. induction ds as [| d ds IH]; intros m Hm Hds.
  - split; [now apply leb_refl | intros d []].
  - rewrite running_min_cons.
    assert (Hd : number d) by (apply Hds; now left).
    set (m' := if d <? m then d else m).
    assert (Hm' : number m') by (unfold m'; now destruct (d <? m)).
    assert (Hm'm : (m' <=? m) = true).
    { unfold m'. destruct (d <? m) eqn:Hlt; [now apply ltb_leb | now apply leb_refl]. }
    assert (Hm'd : (m' <=? d) = true).
    { unfold m'. destruct (d <? m) eqn:Hlt; [now apply leb_refl | now apply leb_total]. }
    destruct (IH m' Hm') as [IH1 IH2]; [intros; apply Hds; now right |].
    split; [now apply leb_trans with m' |].
    intros d' [<- | Hin]; [now apply leb_trans with m' | now apply IH2].
Qed.

Lemma running_min_le_start (ds : list float) (m : float) :
  number m -> number (running_min ds m) /\ (running_min ds m <=? m) = true.
Proof.
  revert m. induction ds as [| d ds IH]; intros m Hm.
  - split; [exact Hm | now apply leb_refl].
  - rewrite running_min_cons. destruct (d <? m) eqn:Hlt.
    + destruct (IH d) as [Hnum Hle]; [now apply (ltb_number d m) |].
      split; [exact Hnum |]. apply leb_trans with d; [exact Hle | now apply ltb_leb].
    + now apply IH.
Qed.

(** Whatever the distances are, none of them is [<] the running minimum. *)
Lemma running_min_none_below (ds : list float) (m : float) :
  number m -> forall d, In d ds -> (d <? running_min ds m) = false.
Proof.
  revert m. induction ds as [| d0 ds IH]; intros m Hm d Hin; [destruct Hin |].
  rewrite running_min_cons.
  destruct Hin as [<- | Hin].
  - destruct (d0 <? m) eqn:Hlt.
    + apply leb_not_ltb. apply running_min_le_start. now apply (ltb_number d0 m).
    + destruct (d0 <? running_min ds m) eqn:Hbelow; [| reflexivity].
      rewrite (ltb_leb_trans d0 (running_min ds m) m) in Hlt; [discriminate | exact Hbelow |].
      now apply running_min_le_start.
  - apply IH; [| exact Hin]. destruct (d0 <? m) eqn:Hlt; [| exact Hm].
    now apply (ltb_number d0 m).
Qed.


Lemma closest_to_vertex_running_min (v1 : Vector) (vs2 : list Vector) (m : float) :
  closest_to_vertex v1 vs2 m =
  running_min (map (fun v2 => vec_length (vec_sub v1 v2)) vs2) m.
Proof. revert m. induction vs2 as [| v2 vs2 IH]; intros m; simpl; [reflexivity | apply IH]. Qed.

Lemma closest_over_vertices_running_min (vs1 vs2 : list Vector) (m : float) :
  closest_over_vertices vs1 (Some vs2) m = inr (running_min (pair_distances vs1 vs2) m).
Proof.
  revert m. induction vs1 as [| v1 vs1 IH]; intros m; simpl; [reflexivity |].
  rewrite IH, closest_to_vertex_running_min. unfold running_min.
  now rewrite fold_left_app.
Qed.

Lemma pair_distances_nil_r (vs1 : list Vector) : pair_distances vs1 [] = [].
Proof. induction vs1 as [| v1 vs1 IH]; simpl; [reflexivity | exact IH]. Qed.


End Distance.

(** ** The safety audit *)

Section Safety.
Context `{Depsgraph}.
Local Open Scope float_scope.

Lemma is_mesh_MESH (t : ObjType) : is_mesh t = true <-> t = MESH.
Proof. destruct t; simpl; split; congruence. Qed.

Lemma is_mesh_object_true (w : World) (n : string) :
  is_mesh_object w n = true <-> exists o, objects w !! n = Some o /\ type o = MESH.
Proof.
  unfold is_mesh_object. destruct (objects w !! n) as [o |].
  - rewrite is_mesh_MESH. split; [intros Ht; now exists o | intros (o' & [= <-] & Ht); exact Ht].
  - split; [discriminate | intros (o' & [=] & _)].
Qed.

Lemma get_evaluated_vertices_mesh (n : string) (o : Object) (w : World) :
  objects w !! n = Some o -> type o = MESH ->
  get_evaluated_vertices_in_world_space (Some n) w =
  Return (Some (world_vertices o), evaluate_view_layer w).
Proof.
  intros Hn Ht. unfold get_evaluated_vertices_in_world_space, bind.
  rewrite (getattr_Some n o), Ht by exact Hn. cbn [is_mesh negb].
  assert (Hn' : objects (evaluate_view_layer w) !! n = Some (evaluate_object o))
    by (rewrite lookup_evaluate_view_layer, Hn; reflexivity).
  unfold view_layer_update, modify.
  rewrite !(getattr_Some n (evaluate_object o)) by exact Hn'.
  reflexivity.
Qed.

Lemma find_closest_distance_meshes (n1 n2 : string) (o1 o2 : Object) (w : World) :
  objects w !! n1 = Some o1 -> objects w !! n2 = Some o2 ->
  type o1 = MESH -> type o2 = MESH ->
  find_closest_distance_between_objects (Some n1) (Some n2) w =
  Return (Some (running_min (pair_distances (world_vertices o1) (world_vertices o2)) float_inf),
          evaluate_view_layer w).
Proof.
  intros Hn1 Hn2 Ht1 Ht2.
  unfold find_closest_distance_between_objects, absent_or_not_mesh, bind.
  rewrite (getattr_Some n1 o1), Ht1 by exact Hn1. cbn [is_mesh negb].
  rewrite (getattr_Some n2 o2), Ht2 by exact Hn2. cbn [is_mesh negb ret].
  rewrite (get_evaluated_vertices_mesh n1 o1) by assumption.
  assert (Hn2' : objects (evaluate_view_layer w) !! n2 = Some (evaluate_object o2))
    by (rewrite lookup_evaluate_view_layer, Hn2; reflexivity).
  rewrite (get_evaluated_vertices_mesh n2 (evaluate_object o2)) by assumption.
  rewrite evaluate_view_layer_idem.
  change (world_vertices (evaluate_object o2)) with (world_vertices o2).
  rewrite closest_over_vertices_running_min. reflexivity.
Qed.

Lemma find_closest_distance_refused (w : World) (n1 n2 : string) :
  is_mesh_object w n1 = false \/ is_mesh_object w n2 = false ->
  find_closest_distance_between_objects (lookup_ref w n1) (lookup_ref w n2) w = Return (None, w).
Proof.
  unfold is_mesh_object, lookup_ref, find_closest_distance_between_objects, absent_or_not_mesh, bind.
  destruct (objects w !! n1) as [o1 |] eqn:Hn1; [| reflexivity].
  destruct (objects w !! n2) as [o2 |] eqn:Hn2; [| reflexivity].
  rewrite (getattr_Some n1 o1) by exact Hn1.
  destruct (is_mesh (type o1)); cbn [negb]; [| reflexivity].
  rewrite (getattr_Some n2 o2) by exact Hn2. cbn [ret].
  intros [Hm | Hm]; [discriminate | now rewrite Hm].
Qed.

Lemma safety_check_unfold (config : Config) (w : World) :
  safety_check config w =
  match find_closest_distance_between_objects (lookup_ref w "Hand") (lookup_ref w "Gloves") w with
  | Return (Some d, w') =>
      Return (if d <? SafetyZone_Distance config then 1%Z else 0%Z, d, w')
  | Return (None, _) => Raise TypeError
  | Raise e => Raise e
  | OutOfFuel => OutOfFuel
  end.
Proof.
  unfold safety_check, bind. rewrite !objects_get_lookup_ref.
  destruct (find_closest_distance_between_objects _ _ w) as [[[d |] w'] | e |]; reflexivity.
Qed.

(** C3. [safety_check] returns whenever 'Hand' and 'Gloves' are meshes of
    the scene, and whenever it returns [(violation, min_distance)],
    [min_distance] is the distance that [find_closest_distance_between_objects]
    computed, [violation] is [1] exactly when [min_distance < threshold] and
    is [0] otherwise; at [min_distance == threshold] it is [0]. *)
Theorem safety_check_violation_iff (config : Config) (w : World) :
  (is_mesh_object w "Hand" = true -> is_mesh_object w "Gloves" = true ->
   exists violation min_distance w',
     safety_check config w = Return (violation, min_distance, w'))
  /\ (forall violation min_distance w',
        safety_check config w = Return (violation, min_distance, w') ->
        find_closest_distance_between_objects (lookup_ref w "Hand") (lookup_ref w "Gloves") w
          = Return (Some min_distance, w')
        /\ (violation = 1%Z <-> (min_distance <? SafetyZone_Distance config) = true)
        /\ (violation = 0%Z <-> (min_distance <? SafetyZone_Distance config) = false)
        /\ ((min_distance =? SafetyZone_Distance config) = true -> violation = 0%Z)
        /\ (min_distance = SafetyZone_Distance config -> violation = 0%Z)).
Proof.
  split.
  - intros Hh Hg.
    apply is_mesh_object_true in Hh as (oh & Hh & Hth).
    apply is_mesh_object_true in Hg as (og & Hg & Htg).
    rewrite safety_check_unfold. unfold lookup_ref. rewrite Hh, Hg.
    rewrite (find_closest_distance_meshes _ _ oh og) by assumption.
    eauto.
  - intros violation d w'. rewrite safety_check_unfold.
    destruct (find_closest_distance_between_objects _ _ w) as [[[d0 |] w0] | e |];
      try discriminate.
    intros [= <- <- <-].
    split; [reflexivity |].
    split; [destruct (d0 <? _); split; congruence |].
    split; [destruct (d0 <? _); split; congruence |].
    split.
    + intros Heq. now rewrite (eqb_ltb _ _ Heq).
    + intros <-. now rewrite ltb_irrefl.
Qed.

(** C5. When 'Hand' or 'Gloves' is missing from the scene or is not a mesh,
    [find_closest_distance_between_objects] returns [None] for the two
    looked-up objects, and [safety_check], comparing [None] with the
    threshold, raises [TypeError]: no [(violation, min_distance)] comes
    out. *)
Theorem safety_check_absent_or_not_mesh (config : Config) (w : World) :
  is_mesh_object w "Hand" = false \/ is_mesh_object w "Gloves" = false ->
  objects_get "Hand" w = Return (lookup_ref w "Hand", w)
  /\ objects_get "Gloves" w = Return (lookup_ref w "Gloves", w)
  /\ find_closest_distance_between_objects (lookup_ref w "Hand") (lookup_ref w "Gloves") w
     = Return (None, w)
  /\ safety_check config w = Raise TypeError.
Proof.
  intros Hno.
  split; [apply objects_get_lookup_ref |].
  split; [apply objects_get_lookup_ref |].
  split; [now apply find_closest_distance_refused |].
  rewrite safety_check_unfold, find_closest_distance_refused by exact Hno. reflexivity.
Qed.


(** C9. When both objects are meshes and the evaluated vertex set of at
    least one of them is empty, [find_closest_distance_between_objects]
    returns [float('inf')] and raises nothing; for 'Hand' and 'Gloves',
    [safety_check] then returns [violation = 0], whatever the threshold. *)
Theorem find_closest_distance_empty_mesh (config : Config) (n1 n2 : string) (o1 o2 : Object)
    (w : World) :
  objects w !! n1 = Some o1 -> objects w !! n2 = Some o2 ->
  type o1 = MESH -> type o2 = MESH ->
  world_vertices o1 = [] \/ world_vertices o2 = [] ->
  find_closest_distance_between_objects (Some n1) (Some n2) w
    = Return (Some float_inf, evaluate_view_layer w)
  /\ (n1 = "Hand"%string -> n2 = "Gloves"%string ->
      safety_check config w = Return (0%Z, float_inf, evaluate_view_layer w)).
Proof.
  intros Hn1 Hn2 Ht1 Ht2 Hempty.
  assert (Hrun : find_closest_distance_between_objects (Some n1) (Some n2) w
                 = Return (Some float_inf, evaluate_view_layer w)).
  { rewrite (find_closest_distance_meshes n1 n2 o1 o2) by assumption.
    destruct Hempty as [-> | ->]; [| rewrite pair_distances_nil_r]; reflexivity. }
  split; [exact Hrun |].
  intros -> ->. rewrite safety_check_unfold. unfold lookup_ref. rewrite Hn1, Hn2, Hrun.
  unfold float_inf. now rewrite ltb_infinity.
Qed.

End Safety.

(** ** The collision test and the rejection loop *)

Section Collision.
Context `{Depsgraph}.

Lemma world_eta (w : World) : mkWorld (objects w) (random_state w) = w.
Proof. now destruct w. Qed.

Lemma setattr_Some (n : string) (o : Object) (f : Object -> Object) (w : World) :
  objects w !! n = Some o ->
  setattr (Some n) f w = Return (tt, mkWorld (alter f n (objects w)) (random_state w)).
Proof. intros Hn. unfold setattr. now rewrite Hn. Qed.

Lemma get_world_bounding_box_xy_run (obj : pyref) (w : World) :
  get_world_bounding_box_xy obj w =
  lift (bounding_area (objects (evaluate_view_layer w)) obj) (evaluate_view_layer w).
Proof.
  unfold get_world_bounding_box_xy, bounding_area, bind, view_layer_update, modify, getattr.
  destruct obj as [n |]; [| reflexivity].
  destruct (objects (evaluate_view_layer w) !! n) as [o |] eqn:Hn; [| reflexivity].
  cbn beta iota. rewrite Hn. cbn beta iota.
  destruct (py_min (map x _)) as [e1 | min_x]; cbn [lift raise ret]; [reflexivity |].
  destruct (py_max (map x _)) as [e2 | max_x]; cbn [lift raise ret]; [reflexivity |].
  destruct (py_min (map y _)) as [e3 | min_y]; cbn [lift raise ret]; [reflexivity |].
  destruct (py_max (map y _)) as [e4 | max_y]; cbn [lift raise ret]; reflexivity.
Qed.

Lemma collision_check_objects_mesh (n : string) (o : Object) (obj2 : pyref) (w : World) :
  objects w !! n = Some o -> type o = MESH ->
  collision_check_objects (Some n) obj2 w =
  lift (probe_hits (checked_objects n (objects w)) n obj2)
       (mkWorld (checked_objects n (objects w)) (random_state w)).
Proof.
  intros Hn Ht. unfold collision_check_objects, bind.
  rewrite (getattr_Some n o), Ht by exact Hn. cbn [is_mesh].
  unfold update_from_editmode. rewrite (setattr_Some n o) by exact Hn.
  rewrite get_world_bounding_box_xy_run. unfold probe_hits.
  change (evaluate_view_layer (mkWorld (alter flush_editmode n (objects w)) (random_state w)))
    with (mkWorld (checked_objects n (objects w)) (random_state w)).
  cbn [objects].
  destruct (bounding_area _ obj2) as [e | area]; cbn [lift raise ret]; [reflexivity |].
  unfold getattr. cbn [objects].
  destruct (checked_objects n (objects w) !! n) as [o' |] eqn:Hn'; [| reflexivity].
  cbn beta iota. cbn [objects]. rewrite Hn'. reflexivity.
Qed.

Lemma collision_check_objects_not_mesh (n : string) (o : Object) (obj2 : pyref) (w : World) :
  objects w !! n = Some o -> type o <> MESH ->
  collision_check_objects (Some n) obj2 w = Return (false, w).
Proof.
  intros Hn Ht. unfold collision_check_objects, bind.
  rewrite (getattr_Some n o) by exact Hn.
  destruct (is_mesh (type o)) eqn:Hm; [| reflexivity].
  now apply is_mesh_MESH in Hm.
Qed.

Ltac lookup_cases k :=
  apply map_eq; intros k;
  repeat (rewrite lookup_fmap || rewrite lookup_alter);
  repeat case_decide; subst; try congruence;
  repeat match goal with |- context [?m !! k] => destruct (m !! k) end;
  try reflexivity.

Lemma flush_evaluate_flush (o : Object) :
  evaluate_object (flush_editmode (evaluate_object (flush_editmode o)))
  = evaluate_object (flush_editmode o).
Proof. destruct o as [t l r s m bb dv [ev |] evs]; reflexivity. Qed.

Lemma flush_placed_evaluate_flush (config : Config) (rs : nat -> float) (o : Object) :
  evaluate_object (flush_editmode (placed config rs (evaluate_object (flush_editmode o))))
  = evaluate_object (flush_editmode (placed config rs o)).
Proof. destruct o as [t l r s m bb dv [ev |] evs]; reflexivity. Qed.

Lemma checked_objects_idem (n : string) (objs : gmap string Object) :
  checked_objects n (checked_objects n objs) = checked_objects n objs.
Proof.
  unfold checked_objects. lookup_cases k; cbn [fmap option_fmap option_map]; f_equal.
  apply flush_evaluate_flush.
Qed.

Lemma checked_objects_placed (config : Config) (rs : nat -> float) (n : string)
    (objs : gmap string Object) :
  checked_objects n (alter (placed config rs) n (checked_objects n objs))
  = checked_objects n (alter (placed config rs) n objs).
Proof.
  unfold checked_objects. lookup_cases k; cbn [fmap option_fmap option_map]; f_equal.
  apply flush_placed_evaluate_flush.
Qed.

Lemma alter_placed_placed (config : Config) (rs rs' : nat -> float) (n : string)
    (objs : gmap string Object) :
  alter (placed config rs) n (alter (placed config rs') n objs)
  = alter (placed config rs) n objs.
Proof. rewrite alter_alter_eq. apply alter_ext. reflexivity. Qed.

Lemma lookup_checked_objects (n k : string) (objs : gmap string Object) :
  is_Some (checked_objects n objs !! k) <-> is_Some (objs !! k).
Proof.
  unfold checked_objects. rewrite lookup_fmap, fmap_is_Some. apply lookup_alter_is_Some.
Qed.

Lemma lookup_checked_objects_probe (n : string) (o : Object) (objs : gmap string Object) :
  objs !! n = Some o ->
  checked_objects n objs !! n = Some (evaluate_object (flush_editmode o)).
Proof.
  intros Hn. unfold checked_objects. now rewrite lookup_fmap, lookup_alter_eq, Hn.
Qed.

Lemma type_evaluate_flush (o : Object) : type (evaluate_object (flush_editmode o)) = type o.
Proof. destruct o as [t l r s m bb dv [ev |] evs]; reflexivity. Qed.

(** [collision_check_objects] as a function of the state it leaves. *)
Lemma collision_check_objects_run (obj1 obj2 : pyref) (w : World) (c : bool) (w' : World) :
  collision_check_objects obj1 obj2 w = Return (c, w') ->
  w' = checked_state obj1 w
  /\ (forall obj3, collision_check_objects obj1 obj3 w' = collision_check_objects obj1 obj3 w).
Proof.
  destruct obj1 as [n |]; [| intros [= <- <-]; now split].
  unfold checked_state.
  destruct (objects w !! n) as [o |] eqn:Hn.
  - destruct (is_mesh (type o)) eqn:Hm.
    + apply is_mesh_MESH in Hm.
      rewrite (collision_check_objects_mesh n o) by assumption.
      destruct (probe_hits _ n obj2) as [e | c']; [discriminate |].
      intros [= <- <-]. split; [reflexivity |]. intros obj3.
      rewrite (collision_check_objects_mesh n o obj3 w) by assumption.
      rewrite (collision_check_objects_mesh n (evaluate_object (flush_editmode o))).
      * cbn [objects random_state]. now rewrite checked_objects_idem.
      * cbn [objects]. now apply lookup_checked_objects_probe.
      * now rewrite type_evaluate_flush.
    + assert (Ht : type o <> MESH) by (intros Ht; rewrite Ht in Hm; discriminate).
      rewrite (collision_check_objects_not_mesh n o) by assumption.
      intros [= <- <-]. now split.
  - unfold collision_check_objects, bind. rewrite getattr_missing by exact Hn. discriminate.
Qed.

Lemma collision_check_objects_stable (obj1 obj2 : pyref) (w : World) (c : bool) (w' : World) :
  collision_check_objects obj1 obj2 w = Return (c, w') ->
  collision_check_objects obj1 obj2 w' = Return (c, w')
  /\ (forall obj3 c3 w3, collision_check_objects obj1 obj3 w' = Return (c3, w3) -> w3 = w').
Proof.
  intros Hrun. destruct (collision_check_objects_run _ _ _ _ _ Hrun) as [Hw' Hsame].
  assert (Hagain : collision_check_objects obj1 obj2 w' = Return (c, w'))
    by (rewrite Hsame; exact Hrun).
  split; [exact Hagain |]. intros obj3 c3 w3 H3.
  destruct (collision_check_objects_run _ _ _ _ _ H3) as [-> _].
  destruct (collision_check_objects_run _ _ _ _ _ Hagain) as [Heq _]. now symmetry.
Qed.

Lemma finite_range_degrees : finite_range (0%float, 360%float) = true.
Proof. reflexivity. Qed.

Lemma stored_one : stored 1 = 1%float.
Proof. vm_compute. reflexivity. Qed.

Lemma stored_zero : stored 0 = 0%float.
Proof. vm_compute. reflexivity. Qed.

Lemma randomize_workpiece_run (n : string) (o : Object) (config : Config) (w : World) :
  objects w !! n = Some o -> finite_ranges config = true ->
  randomize_workpiece (Some n) config w =
  Return (Some n, mkWorld (alter (placed config (random_state w)) n (objects w))
                          (fun k => random_state w (5 + k)%nat)).
Proof.
  intros Hn Hfin. unfold finite_ranges in Hfin.
  apply andb_prop in Hfin as [Hsize Hpos].
  apply andb_prop in Hsize as [Hsx Hsy]. apply andb_prop in Hpos as [Hpx Hpy].
  unfold randomize_workpiece, randomize_position, bind, uniform, setattr, set_objects,
    set_random_state, ret.
  rewrite Hsx, Hsy, finite_range_degrees, Hpx, Hpy.
  cbn [objects random_state fst snd].
  repeat (rewrite ?lookup_alter_eq, ?Hn; cbn [fmap option_fmap option_map objects random_state]).
  do 2 f_equal. f_equal.
  rewrite !alter_alter_eq. apply alter_ext. intros o' _. unfold placed.
  now rewrite stored_one.
Qed.

(** [randomize_workpiece] raises [OverflowError], or an error of the
    workpiece, when a range is not finite. *)
Lemma randomize_workpiece_not_finite (workpiece : pyref) (config : Config) (w : World) :
  finite_ranges config = false ->
  exists e, randomize_workpiece workpiece config w = Raise e.
Proof.
  intros Hfin. unfold finite_ranges in Hfin.
  unfold randomize_workpiece, randomize_position, bind, uniform, setattr, set_objects,
    set_random_state, ret.
  destruct (finite_range (SizeRange_x config)); [| eauto].
  destruct (finite_range (SizeRange_y config)); [| eauto].
  cbn [objects random_state].
  destruct workpiece as [n |]; [| eauto].
  destruct (objects w !! n) as [o |] eqn:Hn; [| eauto].
  rewrite finite_range_degrees. cbn [objects random_state].
  rewrite lookup_alter_eq, Hn. cbn [fmap option_fmap option_map objects random_state].
  destruct (finite_range (PositionRange_x config)); [| eauto].
  cbn [objects random_state].
  rewrite !lookup_alter_eq, Hn. cbn [fmap option_fmap option_map objects random_state].
  destruct (finite_range (PositionRange_y config)); [discriminate | eauto].
Qed.

Lemma randomize_workpiece_returns (workpiece : pyref) (config : Config) (w : World)
    (workpiece' : pyref) (w' : World) :
  randomize_workpiece workpiece config w = Return (workpiece', w') ->
  exists n o, workpiece = Some n /\ workpiece' = Some n /\ objects w !! n = Some o
    /\ w' = mkWorld (alter (placed config (random_state w)) n (objects w))
                    (fun k => random_state w (5 + k)%nat)
    /\ finite_ranges config = true.
Proof.
  intros Hrun.
  destruct (finite_ranges config) eqn:Hfin.
  2:{ destruct (randomize_workpiece_not_finite workpiece config w Hfin) as [e He].
      congruence. }
  destruct workpiece as [n |].
  2:{ unfold finite_ranges in Hfin. apply andb_prop in Hfin as [Hsize _].
      apply andb_prop in Hsize as [Hsx Hsy].
      unfold randomize_workpiece, bind, uniform, setattr in Hrun.
      rewrite Hsx, Hsy in Hrun. discriminate. }
  destruct (objects w !! n) as [o |] eqn:Hn.
  - rewrite (randomize_workpiece_run n o) in Hrun by assumption.
    injection Hrun as <- <-. eauto 8.
  - unfold finite_ranges in Hfin. apply andb_prop in Hfin as [Hsize _].
    apply andb_prop in Hsize as [Hsx Hsy].
    unfold randomize_workpiece, bind, uniform, setattr in Hrun.
    rewrite Hsx, Hsy in Hrun. cbn [objects set_random_state] in Hrun.
    rewrite Hn in Hrun. discriminate.
Qed.



Lemma py_min_lower_bound (xs : list float) (m : float) :
  py_min xs = inr m -> (forall v, In v xs -> number v) ->
  forall v, In v xs -> (m <=? v)%float = true.
Proof.
  destruct xs as [| x0 rest]; [discriminate |].
  cbn [py_min]. intros [= <-] Hnum.
  change (fold_left _ rest x0) with (running_min rest x0).
  destruct (running_min_lower_bound rest x0) as [Hstart Hrest].
  - apply Hnum. now left.
  - intros d Hd. apply Hnum. now right.
  - intros v [<- | Hv]; [exact Hstart | now apply Hrest].
Qed.

Lemma fold_max_upper_bound (ds : list float) (m : float) :
  number m -> (forall d, In d ds -> number d) ->
  (m <=? fold_left (fun m v => if m <? v then v else m) ds m)%float = true
  /\ (forall d, In d ds ->
        (d <=? fold_left (fun m v => if m <? v then v else m) ds m)%float = true).
Proof.
  revert m. induction ds as [| d ds IH]; intros m Hm Hds; cbn [fold_left].
  - split; [now apply leb_refl | intros d []].
  - assert (Hd : number d) by (apply Hds; now left).
    set (m' := if (m <? d)%float then d else m).
    assert (Hm' : number m') by (unfold m'; now destruct (m <? d)%float).
    assert (Hmm' : (m <=? m')%float = true).
    { unfold m'. destruct (m <? d)%float eqn:Hlt; [now apply ltb_leb | now apply leb_refl]. }
    assert (Hdm' : (d <=? m')%float = true).
    { unfold m'. destruct (m <? d)%float eqn:Hlt; [now apply leb_refl | now apply leb_total]. }
    destruct (IH m' Hm') as [IH1 IH2]; [intros; apply Hds; now right |].
    split; [now apply leb_trans with m' |].
    intros d' [<- | Hin]; [now apply leb_trans with m' | now apply IH2].
Qed.

Lemma py_max_upper_bound (xs : list float) (m : float) :
  py_max xs = inr m -> (forall v, In v xs -> number v) ->
  forall v, In v xs -> (v <=? m)%float = true.
Proof.
  destruct xs as [| x0 rest]; [discriminate |].
  cbn [py_max]. intros [= <-] Hnum.
  destruct (fold_max_upper_bound rest x0) as [Hstart Hrest].
  - apply Hnum. now left.
  - intros d Hd. apply Hnum. now right.
  - intros v [<- | Hv]; [exact Hstart | now apply Hrest].
Qed.

(** The area of [get_world_bounding_box_xy] is a bounding area: every
    corner of the object's bounding box, in world space, is within it (for
    corners whose coordinates are numbers). *)
Lemma bounding_area_contains_corners (objs : gmap string Object) (n : string) (o : Object)
    (min_x max_x min_y max_y : float) :
  objs !! n = Some o ->
  bounding_area objs (Some n) = inr (min_x, max_x, min_y, max_y) ->
  (forall corner, In corner (bound_box o) ->
     number (x (matmul_vec (matrix_world o) corner))
     /\ number (y (matmul_vec (matrix_world o) corner))) ->
  forall corner, In corner (bound_box o) ->
    is_point_within_xy_area (matmul_vec (matrix_world o) corner) min_x max_x min_y max_y = true.
Proof.
  intros Hn Harea Hnum corner Hcorner.
  unfold bounding_area in Harea. rewrite Hn in Harea.
  set (corners := map (matmul_vec (matrix_world o)) (bound_box o)) in Harea.
  destruct (py_min (map x corners)) as [e | a] eqn:Ha; [discriminate |].
  destruct (py_max (map x corners)) as [e | b] eqn:Hb; [discriminate |].
  destruct (py_min (map y corners)) as [e | c] eqn:Hc; [discriminate |].
  destruct (py_max (map y corners)) as [e | d] eqn:Hd; [discriminate |].
  injection Harea as -> -> -> ->.
  assert (Hxs : forall v, In v (map x corners) -> number v).
  { intros v Hv. apply in_map_iff in Hv as (p & <- & Hp).
    apply in_map_iff in Hp as (c0 & <- & Hc0). now apply Hnum. }
  assert (Hys : forall v, In v (map y corners) -> number v).
  { intros v Hv. apply in_map_iff in Hv as (p & <- & Hp).
    apply in_map_iff in Hp as (c0 & <- & Hc0). now apply Hnum. }
  assert (Hx : In (x (matmul_vec (matrix_world o) corner)) (map x corners))
    by (apply in_map, in_map, Hcorner).
  assert (Hy : In (y (matmul_vec (matrix_world o) corner)) (map y corners))
    by (apply in_map, in_map, Hcorner).
  unfold is_point_within_xy_area.
  rewrite (py_min_lower_bound _ _ Ha Hxs _ Hx), (py_max_upper_bound _ _ Hb Hxs _ Hx),
    (py_min_lower_bound _ _ Hc Hys _ Hy), (py_max_upper_bound _ _ Hd Hys _ Hy).
  reflexivity.
Qed.

Lemma fold_max_cases (ds : list float) (m : float) :
  fold_left (fun m v => if (m <? v)%float then v else m) ds m = m
  \/ In (fold_left (fun m v => if (m <? v)%float then v else m) ds m) ds.
Proof.
  revert m. induction ds as [| d ds IH]; intros m; cbn [fold_left].
  - now left.
  - destruct (IH (if (m <? d)%float then d else m)) as [Heq | Hin].
    + rewrite Heq. destruct (m <? d)%float; [right; now left | now left].
    + right. now right.
Qed.

Lemma py_min_attained (xs : list float) (m : float) : py_min xs = inr m -> In m xs.
Proof.
  destruct xs as [| x0 rest]; [discriminate |]. cbn [py_min]. intros [= <-].
  change (fold_left _ rest x0) with (running_min rest x0).
  destruct (running_min_cases rest x0) as [-> | Hin]; [now left | now right].
Qed.

Lemma py_max_attained (xs : list float) (m : float) : py_max xs = inr m -> In m xs.
Proof.
  destruct xs as [| x0 rest]; [discriminate |]. cbn [py_max]. intros [= <-].
  destruct (fold_max_cases rest x0) as [-> | Hin]; [now left | now right].
Qed.




Lemma same_names_refl (w : World) : same_names w w.
Proof. intros k. reflexivity. Qed.

Lemma same_names_trans (w1 w2 w3 : World) :
  same_names w1 w2 -> same_names w2 w3 -> same_names w1 w3.
Proof. intros H12 H23 k. etransitivity; [apply H23 | apply H12]. Qed.

Lemma same_names_lookup_ref (w w' : World) (k : string) :
  same_names w w' -> lookup_ref w' k = lookup_ref w k.
Proof.
  intros Hs. specialize (Hs k). unfold lookup_ref.
  destruct (objects w' !! k), (objects w !! k); try reflexivity.
  - destruct Hs as [Hs _]. destruct Hs as [? [=]]. eauto.
  - destruct Hs as [_ Hs]. destruct Hs as [? [=]]. eauto.
Qed.

Lemma same_names_checked_state (obj1 : pyref) (w : World) :
  same_names w (checked_state obj1 w).
Proof.
  unfold checked_state. destruct obj1 as [n |]; [| apply same_names_refl].
  destruct (objects w !! n) as [o |]; [| apply same_names_refl].
  destruct (is_mesh (type o)); [| apply same_names_refl].
  intros k. apply lookup_checked_objects.
Qed.

Lemma rejection_loop_S (fuel : nat) (workpiece vest panda_leg : pyref) (config : Config)
    (check1 check2 : bool) :
  rejection_loop (S fuel) workpiece vest panda_leg config check1 check2 =
  if check1 || check2 then
    let* workpiece := randomize_workpiece workpiece config in
    let* check1 := collision_check_objects workpiece vest in
    let* check2 := collision_check_objects workpiece panda_leg in
    rejection_loop fuel workpiece vest panda_leg config check1 check2
  else ret tt.
Proof. reflexivity. Qed.

(** The loop leaves a scene in which both checks are false, when they were
    the checks of the scene it started in. *)
Lemma rejection_loop_collision_free (fuel : nat) (workpiece vest panda_leg : pyref)
    (config : Config) (check1 check2 : bool) (w w' : World) :
  collision_check_objects workpiece vest w = Return (check1, w) ->
  collision_check_objects workpiece panda_leg w = Return (check2, w) ->
  rejection_loop fuel workpiece vest panda_leg config check1 check2 w = Return (tt, w') ->
  collision_check_objects workpiece vest w' = Return (false, w')
  /\ collision_check_objects workpiece panda_leg w' = Return (false, w')
  /\ same_names w w'.
Proof.
  revert check1 check2 w.
  induction fuel as [| fuel IH]; intros check1 check2 w H1 H2 Hloop.
  - cbn [rejection_loop] in Hloop.
    destruct (check1 || check2) eqn:Hc; [discriminate |].
    injection Hloop as <-. apply orb_false_elim in Hc as [-> ->].
    split; [exact H1 | split; [exact H2 | apply same_names_refl]].
  - rewrite rejection_loop_S in Hloop.
    destruct (check1 || check2) eqn:Hc.
    + unfold bind in Hloop.
      destruct (randomize_workpiece workpiece config w) as [[wp1 w1] | e |] eqn:Hr;
        try discriminate.
      destruct (randomize_workpiece_returns _ _ _ _ _ Hr) as (n & o & -> & -> & Hn & Hw1 & Hfin).
      destruct (collision_check_objects (Some n) vest w1) as [[c1 w2] | e |] eqn:Hc1;
        try discriminate.
      destruct (collision_check_objects (Some n) panda_leg w2) as [[c2 w3] | e |] eqn:Hc2;
        try discriminate.
      destruct (collision_check_objects_stable _ _ _ _ _ Hc1) as [Hc1' Hfix].
      assert (Hw3 : w3 = w2) by (eapply Hfix; exact Hc2). subst w3.
      destruct (IH c1 c2 w2 Hc1' Hc2 Hloop) as (Hv & Hl & Hnames).
      split; [exact Hv | split; [exact Hl |]].
      apply same_names_trans with w2; [| exact Hnames].
      apply same_names_trans with w1.
      * subst w1. intros k. cbn [objects]. apply lookup_alter_is_Some.
      * destruct (collision_check_objects_run _ _ _ _ _ Hc1) as [-> _].
        apply same_names_checked_state.
    + injection Hloop as <-. apply orb_false_elim in Hc as [-> ->].
      split; [exact H1 | split; [exact H2 | apply same_names_refl]].
Qed.

(** C1. Whenever [collision_check_scene] returns, for whatever scene and
    workpiece it was called on and whatever numbers the random generator
    produced, [collision_check_objects] is [False] in the scene it leaves,
    for the workpiece against 'Ch17_Vest' and against 'Link-0'. *)
Theorem collision_check_scene_collision_free (fuel : nat) (workpiece : pyref)
    (config : Config) (w w' : World) :
  collision_check_scene fuel workpiece config w = Return (tt, w') ->
  collision_check_objects workpiece (lookup_ref w' "Ch17_Vest") w' = Return (false, w')
  /\ collision_check_objects workpiece (lookup_ref w' "Link-0") w' = Return (false, w').
Proof.
  unfold collision_check_scene, bind. rewrite !objects_get_lookup_ref.
  destruct (collision_check_objects workpiece (lookup_ref w "Ch17_Vest") w)
    as [[c1 w1] | e |] eqn:Hc1; try discriminate.
  destruct (collision_check_objects workpiece (lookup_ref w "Link-0") w1)
    as [[c2 w2] | e |] eqn:Hc2; try discriminate.
  intros Hloop.
  destruct (collision_check_objects_stable _ _ _ _ _ Hc1) as [Hc1' Hfix].
  assert (Hw2 : w2 = w1) by (eapply Hfix; exact Hc2). subst w2.
  destruct (rejection_loop_collision_free _ _ _ _ _ _ _ _ _ Hc1' Hc2 Hloop)
    as (Hv & Hl & Hnames).
  assert (Hall : same_names w w').
  { apply same_names_trans with w1; [| exact Hnames].
    destruct (collision_check_objects_run _ _ _ _ _ Hc1) as [-> _].
    apply same_names_checked_state. }
  rewrite !(same_names_lookup_ref w w') by exact Hall. now split.
Qed.

Lemma both_checks_mesh (n : string) (o : Object) (vest panda_leg : pyref) (w : World) :
  objects w !! n = Some o -> type o = MESH ->
  both_checks (Some n) vest panda_leg w =
  match probe_hits (checked_objects n (objects w)) n vest,
        probe_hits (checked_objects n (objects w)) n panda_leg with
  | inr check1, inr check2 =>
      Return ((check1, check2), mkWorld (checked_objects n (objects w)) (random_state w))
  | inl e, _ | inr _, inl e => Raise e
  end.
Proof.
  intros Hn Ht. unfold both_checks, bind.
  rewrite (collision_check_objects_mesh n o) by assumption.
  destruct (probe_hits _ n vest) as [e | c1]; cbn [lift raise ret]; [reflexivity |].
  rewrite (collision_check_objects_mesh n (evaluate_object (flush_editmode o))).
  - cbn [objects random_state]. rewrite checked_objects_idem.
    destruct (probe_hits _ n panda_leg) as [e | c2]; reflexivity.
  - cbn [objects]. now apply lookup_checked_objects_probe.
  - now rewrite type_evaluate_flush.
Qed.

Lemma both_checks_not_mesh (workpiece vest panda_leg : pyref) (w : World) :
  (forall n o, workpiece = Some n -> objects w !! n = Some o -> type o <> MESH) ->
  collides workpiece vest panda_leg w = false.
Proof.
  intros Hno. unfold collides, both_checks, bind.
  destruct workpiece as [n |]; [| reflexivity].
  destruct (objects w !! n) as [o |] eqn:Hn.
  - rewrite !(collision_check_objects_not_mesh n o) by eauto. reflexivity.
  - unfold collision_check_objects, bind. now rewrite getattr_missing.
Qed.

Lemma collides_mesh (workpiece vest panda_leg : pyref) (w : World) :
  collides workpiece vest panda_leg w = true ->
  exists n o, workpiece = Some n /\ objects w !! n = Some o /\ type o = MESH.
Proof.
  intros Hc. destruct workpiece as [n |]; [| discriminate].
  destruct (objects w !! n) as [o |] eqn:Hn.
  - destruct (is_mesh (type o)) eqn:Hm; [apply is_mesh_MESH in Hm; eauto |].
    rewrite both_checks_not_mesh in Hc; [discriminate |].
    intros n' o' [= <-] Hn' Ht. rewrite Hn in Hn'. injection Hn' as <-.
    rewrite Ht in Hm. discriminate.
  - rewrite both_checks_not_mesh in Hc; [discriminate |]. intros n' o' [= <-]. congruence.
Qed.

(** With every resample colliding, the loop is still running after any
    number of iterations. *)
Lemma rejection_loop_out_of_fuel (n : string) (vest panda_leg : pyref) (config : Config)
    (objs : gmap string Object) :
  (forall rs, unit_stream rs ->
     resample_collides (Some n) vest panda_leg config (mkWorld objs rs) = true) ->
  forall fuel check1 check2 w o,
    check1 || check2 = true ->
    unit_stream (random_state w) ->
    objects w !! n = Some o -> type o = MESH ->
    same_resamples config n objs (objects w) ->
    rejection_loop fuel (Some n) vest panda_leg config check1 check2 w = OutOfFuel.
Proof.
  intros Hall.
  induction fuel as [| fuel IH]; intros check1 check2 w o Hc Hunit Hn Ht Hsame.
  - cbn [rejection_loop]. now rewrite Hc.
  - rewrite rejection_loop_S, Hc. unfold bind at 1.
    set (rs := random_state w).
    (* the same placement, drawn in the scene of the hypothesis *)
    specialize (Hall rs Hunit). unfold resample_collides in Hall.
    destruct (randomize_workpiece (Some n) config (mkWorld objs rs))
      as [[wp0 w0'] | e |] eqn:Hr0; try discriminate.
    destruct (randomize_workpiece_returns _ _ _ _ _ Hr0)
      as (n0 & o0 & [= <-] & -> & Hn0 & -> & Hfin).
    cbn [objects random_state] in Hn0, Hall.
    rewrite (randomize_workpiece_run n o) by assumption.
    fold rs.
    set (w1 := mkWorld (alter (placed config rs) n (objects w)) (fun k => rs (5 + k)%nat)).
    assert (Hn1 : objects w1 !! n = Some (placed config rs o))
      by (unfold w1; cbn [objects]; now rewrite lookup_alter_eq, Hn).
    assert (Hboth := both_checks_mesh n (placed config rs o) vest panda_leg w1 Hn1 Ht).
    set (w0 := mkWorld (alter (placed config rs) n objs) (fun k => rs (5 + k)%nat)) in Hall.
    assert (Hn0' : objects w0 !! n = Some (placed config rs o0))
      by (unfold w0; cbn [objects]; now rewrite lookup_alter_eq, Hn0).
    destruct (collides_mesh _ _ _ _ Hall) as (n' & o' & [= <-] & Ho' & Ht0).
    rewrite Hn0' in Ho'. injection Ho' as <-.
    unfold collides in Hall.
    rewrite (both_checks_mesh n (placed config rs o0) vest panda_leg w0 Hn0' Ht0) in Hall.
    unfold w0 in Hall. cbn [objects random_state] in Hall.
    set (O := checked_objects n (alter (placed config rs) n objs)) in *.
    assert (HO : checked_objects n (objects w1) = O) by (unfold w1; cbn [objects]; apply Hsame).
    rewrite HO in Hboth. clear HO.
    unfold both_checks in Hboth.
    destruct (probe_hits O n vest) as [e | c1] eqn:Hp1; [discriminate |].
    destruct (probe_hits O n panda_leg) as [e | c2] eqn:Hp2; [discriminate |].
    unfold bind in Hboth |- *.
    destruct (collision_check_objects (Some n) vest w1) as [[c1' w2] | e |]; try discriminate.
    destruct (collision_check_objects (Some n) panda_leg w2) as [[c2' w3] | e |];
      try discriminate.
    injection Hboth as -> -> ->.
    apply (IH c1 c2 _ (evaluate_object (flush_editmode (placed config rs o0)))).
    + exact Hall.
    + intros k. apply Hunit.
    + cbn [objects]. now apply lookup_checked_objects_probe.
    + now rewrite type_evaluate_flush.
    + intros rs'. cbn [objects]. unfold O.
      now rewrite checked_objects_placed, alter_placed_placed.
Qed.

Lemma collision_check_scene_out_of_fuel (n : string) (config : Config)
    (objs : gmap string Object) (w : World) (fuel : nat) :
  (forall rs, unit_stream rs ->
     resample_collides (Some n) (lookup_ref w "Ch17_Vest") (lookup_ref w "Link-0") config
       (mkWorld objs rs) = true) ->
  collides (Some n) (lookup_ref w "Ch17_Vest") (lookup_ref w "Link-0") w = true ->
  unit_stream (random_state w) ->
  same_resamples config n objs (objects w) ->
  collision_check_scene fuel (Some n) config w = OutOfFuel.
Proof.
  intros Hall Hc Hunit Hsame.
  destruct (collides_mesh _ _ _ _ Hc) as (n' & o & [= <-] & Hn & Ht).
  unfold collision_check_scene, bind at 1 2. rewrite !objects_get_lookup_ref.
  unfold collides in Hc. rewrite (both_checks_mesh n o) in Hc by assumption.
  assert (Hboth := both_checks_mesh n o (lookup_ref w "Ch17_Vest") (lookup_ref w "Link-0")
                     w Hn Ht).
  destruct (probe_hits _ n (lookup_ref w "Ch17_Vest")) as [e | c1]; [discriminate |].
  destruct (probe_hits _ n (lookup_ref w "Link-0")) as [e | c2]; [discriminate |].
  unfold both_checks, bind in Hboth. unfold bind.
  destruct (collision_check_objects (Some n) (lookup_ref w "Ch17_Vest") w)
    as [[c1' w1] | e |]; try discriminate.
  destruct (collision_check_objects (Some n) (lookup_ref w "Link-0") w1)
    as [[c2' w2] | e |]; try discriminate.
  injection Hboth as -> -> ->.
  apply (rejection_loop_out_of_fuel n _ _ config objs Hall fuel c1 c2 _
           (evaluate_object (flush_editmode o))).
  - exact Hc.
  - exact Hunit.
  - cbn [objects]. now apply lookup_checked_objects_probe.
  - now rewrite type_evaluate_flush.
  - intros rs. cbn [objects]. rewrite checked_objects_placed. apply Hsame.
Qed.

(** C2. The loop has no bound on its iterations.  When every placement that
    [randomize_workpiece] can draw for the scene collides with 'Ch17_Vest'
    or 'Link-0' (for every random generator with numbers in [0, 1)), then
    [collision_check_scene] never returns: on a workpiece that collides on
    entry, and so on every workpiece that [randomize_workpiece] placed (as
    [main] does before the call), the loop is still running after any number
    of iterations. *)
Theorem collision_check_scene_never_returns (workpiece : pyref) (config : Config) (w : World) :
  (forall rs, unit_stream rs ->
     resample_collides workpiece (lookup_ref w "Ch17_Vest") (lookup_ref w "Link-0") config
       (set_random_state rs w) = true) ->
  (forall rs fuel, unit_stream rs ->
     collides workpiece (lookup_ref w "Ch17_Vest") (lookup_ref w "Link-0")
       (set_random_state rs w) = true ->
     collision_check_scene fuel workpiece config (set_random_state rs w) = OutOfFuel)
  /\ (forall rs fuel, unit_stream rs ->
      exists w1,
        randomize_workpiece workpiece config (set_random_state rs w) = Return (workpiece, w1)
        /\ collision_check_scene fuel workpiece config w1 = OutOfFuel).
Proof.
  intros Hall. split.
  - intros rs fuel Hunit Hc.
    destruct (collides_mesh _ _ _ _ Hc) as (n & o & -> & Hn & Ht).
    apply (collision_check_scene_out_of_fuel n config (objects w)).
    + exact Hall.
    + exact Hc.
    + exact Hunit.
    + intros rs'. reflexivity.
  - intros rs fuel Hunit.
    assert (Hrs := Hall rs Hunit). unfold resample_collides in Hrs.
    destruct (randomize_workpiece workpiece config (set_random_state rs w))
      as [[wp1 w1] | e |] eqn:Hr; try discriminate.
    destruct (randomize_workpiece_returns _ _ _ _ _ Hr) as (n & o & -> & -> & Hn & Hw1 & Hfin).
    exists w1. split; [reflexivity |].
    cbn [set_random_state objects random_state] in Hw1, Hn.
    assert (Hnames : same_names w w1).
    { subst w1. intros k. cbn [objects]. apply lookup_alter_is_Some. }
    apply (collision_check_scene_out_of_fuel n config (objects w)).
    + rewrite !(same_names_lookup_ref w w1) by exact Hnames. exact Hall.
    + rewrite !(same_names_lookup_ref w w1) by exact Hnames. exact Hrs.
    + subst w1. intros k. apply Hunit.
    + subst w1. intros rs'. cbn [objects]. now rewrite alter_placed_placed.
Qed.

End Collision.

(** ** The dataset log *)

Section Decimal.

Lemma split_absent (sep : ascii) (s : string) : absent sep s -> split sep s = [s].
Proof.
  unfold absent. induction s as [| c s IH]; cbn [split list_ascii_of_string]; [reflexivity |].
  intros Hno. destruct (Ascii.eqb c sep) eqn:Hc.
  - apply Ascii.eqb_eq in Hc. exfalso. apply Hno. now left.
  - rewrite IH; [reflexivity |]. intros Hin. apply Hno. now right.
Qed.

Lemma append_cons (c : ascii) (s1 s2 : string) :
  String.append (String c s1) s2 = String c (String.append s1 s2).
Proof. reflexivity. Qed.

Lemma append_empty (s : string) : String.append EmptyString s = s.
Proof. reflexivity. Qed.

Lemma split_app (sep : ascii) (s1 s2 : string) :
  absent sep s1 -> split sep (String.append s1 (String sep s2)) = s1 :: split sep s2.
Proof.
  unfold absent.
  induction s1 as [| c s1 IH]; rewrite ?append_cons, ?append_empty;
    cbn [split list_ascii_of_string]; intros Hno.
  - now rewrite Ascii.eqb_refl.
  - destruct (Ascii.eqb c sep) eqn:Hc.
    + apply Ascii.eqb_eq in Hc. exfalso. apply Hno. now left.
    + rewrite IH; [reflexivity |]. intros Hin. apply Hno. now right.
Qed.

Lemma list_ascii_of_string_app (s1 s2 : string) :
  list_ascii_of_string (String.append s1 s2)
  = list_ascii_of_string s1 ++ list_ascii_of_string s2.
Proof.
  induction s1 as [| c s1 IH]; rewrite ?append_cons, ?append_empty;
    cbn [list_ascii_of_string app]; [reflexivity | now rewrite IH].
Qed.

Lemma string_of_list_ascii_app (l1 l2 : list ascii) :
  string_of_list_ascii (l1 ++ l2)
  = String.append (string_of_list_ascii l1) (string_of_list_ascii l2).
Proof.
  induction l1 as [| c l1 IH]; cbn [string_of_list_ascii app];
    rewrite ?append_cons, ?append_empty; [reflexivity | now rewrite IH].
Qed.

Lemma digits_value_acc (d : Decimal.uint) (acc : positive) :
  digits_value (Z.pos acc) (list_ascii_of_string (NilEmpty.string_of_uint d))
  = Some (Z.pos (Pos.of_uint_acc d acc)).
Proof.
  revert acc.
  induction d as [| d IH | d IH | d IH | d IH | d IH | d IH | d IH | d IH | d IH | d IH];
    intros acc;
    cbn [NilEmpty.string_of_uint list_ascii_of_string digits_value Pos.of_uint_acc];
    [reflexivity | ..];
    (match goal with
     | |- context [digit_value ?c] =>
         let v := eval vm_compute in (digit_value c) in change (digit_value c) with v
     end;
     cbv beta iota; rewrite <- IH; f_equal; lia).
Qed.

Lemma digits_value_uint (d : Decimal.uint) :
  digits_value 0 (list_ascii_of_string (NilEmpty.string_of_uint d))
  = Some (Z.of_N (Pos.of_uint d)).
Proof.
  induction d as [| d IH | d IH | d IH | d IH | d IH | d IH | d IH | d IH | d IH | d IH];
    cbn [NilEmpty.string_of_uint list_ascii_of_string digits_value Pos.of_uint];
    [reflexivity | ..];
    match goal with
    | |- context [digit_value ?c] =>
        let v := eval vm_compute in (digit_value c) in change (digit_value c) with v
    end;
    cbv beta iota; [exact IH | ..]; apply digits_value_acc.
Qed.

Lemma all_digits_uint (d : Decimal.uint) :
  all_digits (list_ascii_of_string (NilEmpty.string_of_uint d)).
Proof.
  unfold all_digits.
  induction d; cbn [NilEmpty.string_of_uint list_ascii_of_string]; constructor;
    try assumption; discriminate.
Qed.

Lemma digits_value_zeros (k : nat) (s : list ascii) :
  digits_value 0 (repeat "0"%char k ++ s) = digits_value 0 s.
Proof. induction k as [| k IH]; [reflexivity | exact IH]. Qed.

Lemma all_digits_zeros (k : nat) : all_digits (repeat "0"%char k).
Proof. unfold all_digits. induction k; constructor; [discriminate | assumption]. Qed.

Lemma digit_not_space (c : ascii) : digit_value c <> None -> is_space c = false.
Proof.
  unfold digit_value, is_space. intros Hd.
  destruct ((48 <=? nat_of_ascii c)%nat && (nat_of_ascii c <=? 57)%nat) eqn:Hr; [| congruence].
  apply andb_true_iff in Hr as [H1 H2].
  apply Nat.leb_le in H1. apply Nat.leb_le in H2.
  apply orb_false_iff. split.
  - apply andb_false_iff. right. apply Nat.leb_gt. lia.
  - apply Nat.eqb_neq. lia.
Qed.

Lemma lstrip_digits (s : list ascii) : all_digits s -> lstrip s = s.
Proof.
  intros Hs. destruct Hs as [| c s Hc Hs]; [reflexivity |].
  cbn [lstrip]. now rewrite digit_not_space.
Qed.

Lemma strip_digits (s : list ascii) : all_digits s -> strip s = s.
Proof.
  intros Hs. unfold strip. rewrite (lstrip_digits s Hs).
  rewrite lstrip_digits; [apply rev_involutive |].
  unfold all_digits. apply List.Forall_forall. intros c Hc. apply in_rev in Hc.
  unfold all_digits in Hs. rewrite List.Forall_forall in Hs. now apply Hs.
Qed.

Lemma digit_not_sign (c : ascii) :
  digit_value c <> None -> c <> "-"%char /\ c <> "+"%char.
Proof. intros Hd. split; intros ->; now apply Hd. Qed.

(** [int()] reads what [str()] and the [06d] format write. *)
Lemma py_int_digits (s : list ascii) (n : Z) :
  s <> [] -> all_digits s -> digits_value 0 s = Some n ->
  py_int (string_of_list_ascii s) = inr n.
Proof.
  intros Hne Hs Hval. unfold py_int.
  rewrite list_ascii_of_string_of_list_ascii, (strip_digits s Hs).
  destruct s as [| c s']; [congruence |].
  assert (Hc : digit_value c <> None) by now inversion Hs.
  destruct (digit_not_sign c Hc) as [Hminus Hplus].
  assert (Hparsed :
    match c :: s' with
    | "-"%char :: digits => option_map Z.opp (unsigned_value digits)
    | "+"%char :: digits => unsigned_value digits
    | _ => unsigned_value (c :: s')
    end = unsigned_value (c :: s')).
  { destruct c as [[] [] [] [] [] [] [] []]; try reflexivity; congruence. }
  rewrite Hparsed. cbn [unsigned_value]. now rewrite Hval.
Qed.

Lemma format_06d_digits (n : Z) :
  0 <= n ->
  exists s, format_06d n = string_of_list_ascii s /\ s <> [] /\ all_digits s
            /\ digits_value 0 s = Some n.
Proof.
  intros Hn. unfold format_06d.
  assert (Hneg : (n <? 0)%Z = false) by (apply Z.ltb_ge; exact Hn). rewrite Hneg.
  set (m := Z.abs_N n).
  assert (Hnil : NilZero.string_of_uint (N.to_uint m) = NilEmpty.string_of_uint (N.to_uint m)).
  { destruct (N.to_uint m) eqn:Hu; try reflexivity.
    exfalso. destruct m as [| p]; [discriminate |].
    now apply (DecimalPos.Unsigned.to_uint_nonnil p). }
  rewrite Hnil. unfold zfill.
  set (body := NilEmpty.string_of_uint (N.to_uint m)).
  set (k := (6 - String.length body)%nat).
  exists (repeat "0"%char k ++ list_ascii_of_string body).
  split; [| split; [| split]].
  - now rewrite string_of_list_ascii_app, string_of_list_ascii_of_string.
  - intros Happ. apply app_eq_nil in Happ as [_ Hbody].
    unfold body in Hbody.
    destruct m as [| p]; [discriminate |].
    cbn [N.to_uint] in Hbody.
    destruct (Pos.to_uint p) eqn:Hu; try discriminate.
    now apply (DecimalPos.Unsigned.to_uint_nonnil p).
  - unfold all_digits. apply List.Forall_app. split; [apply all_digits_zeros | apply all_digits_uint].
  - rewrite digits_value_zeros. unfold body. rewrite digits_value_uint.
    change (Pos.of_uint (N.to_uint m)) with (N.of_uint (N.to_uint m)).
    rewrite DecimalN.Unsigned.of_to. unfold m. rewrite N2Z.inj_abs_N. f_equal. lia.
Qed.

Lemma all_digits_absent (sep : ascii) (s : list ascii) :
  digit_value sep = None -> all_digits s -> ~ In sep s.
Proof.
  intros Hsep Hs Hin. unfold all_digits in Hs. rewrite List.Forall_forall in Hs.
  now apply (Hs sep Hin).
Qed.

End Decimal.

Section LogProperties.
Context `{FloatRepr}.

Lemma index_last {A : Type} (front : list A) (a : A) :
  index (front ++ [a]) (List.length (front ++ [a]) - 1) = inr a.
Proof.
  unfold index. rewrite length_app. cbn [List.length].
  replace (List.length front + 1 - 1)%nat with (List.length front + 0)%nat by lia.
  now rewrite nth_error_app2, Nat.add_0_r, Nat.sub_diag by lia.
Qed.

Lemma next_image_num_continues (front : list (list string)) (cells : list string) (n : Z) :
  0 <= n -> next_image_num (front ++ [ image_name n :: cells ]) = inr (n + 1).
Proof.
  intros Hn. unfold next_image_num. rewrite index_last. cbn [index nth_error].
  destruct (format_06d_digits n Hn) as (s & Hs & Hne & Hdigits & Hval).
  unfold image_name. rewrite Hs.
  set (F := string_of_list_ascii s).
  assert (HF : forall sep, digit_value sep = None -> absent sep F).
  { intros sep Hsep. unfold absent, F. rewrite list_ascii_of_string_of_list_ascii.
    now apply all_digits_absent. }
  change (String.append "image_" (String.append F ".jpg"))
    with (String.append "image" (String "_" (String.append F ".jpg"))).
  rewrite split_app.
  2:{ unfold absent. cbn [list_ascii_of_string In]. intuition discriminate. }
  rewrite split_absent.
  2:{ unfold absent. rewrite list_ascii_of_string_app. intros Hin.
      apply in_app_or in Hin as [Hin | Hin].
      - now apply (HF "_"%char).
      - cbn [list_ascii_of_string In] in Hin. intuition discriminate. }
  cbn [index nth_error].
  change (String.append F ".jpg") with (String.append F (String "." "jpg")).
  rewrite split_app by now apply HF.
  cbn [index nth_error]. unfold F. now rewrite (py_int_digits s n).
Qed.

(** C8. When the log exists and the last of its rows, after at least a
    header row, names image [image_000041.jpg], [log_to_csv] appends a row
    for [image_000042.jpg], whatever the index argument [i] is; and so for
    every index [n >= 0] in place of 41: the row appended after
    [f"image_{n:06d}.jpg"] is the one of [f"image_{n+1:06d}.jpg"]. *)
Theorem log_to_csv_continues_index (violation : Z) (distance : float) (i : Z)
    (front : list (list string)) (cells : list string) :
  front <> [] ->
  log_to_csv violation distance i (Some (front ++ [ "image_000041.jpg" :: cells ])) =
    Return (tt, Some ((front ++ [ "image_000041.jpg" :: cells ])
                      ++ [[ "image_000042.jpg"; str_int violation; float_repr distance ]]))
  /\ (forall n, 0 <= n ->
        log_to_csv violation distance i (Some (front ++ [ image_name n :: cells ])) =
        Return (tt, Some ((front ++ [ image_name n :: cells ])
                          ++ [[ image_name (n + 1); str_int violation;
                                float_repr distance ]]))).
Proof.
  intros Hfront.
  assert (Hall : forall n, 0 <= n ->
            log_to_csv violation distance i (Some (front ++ [ image_name n :: cells ])) =
            Return (tt, Some ((front ++ [ image_name n :: cells ])
                              ++ [[ image_name (n + 1); str_int violation;
                                    float_repr distance ]]))).
  { intros n Hn. unfold log_to_csv, bind, get_state, modify.
    assert (Hlen : (1 <? List.length (front ++ [image_name n :: cells]))%nat = true).
    { apply Nat.ltb_lt. rewrite length_app. cbn [List.length].
      destruct front; [congruence | cbn [List.length]; lia]. }
    rewrite Hlen, next_image_num_continues by exact Hn.
    cbn [lift ret].
    destruct (front ++ [image_name n :: cells]) as [| row rows] eqn:Hrows.
    - destruct front; discriminate.
    - reflexivity. }
  split; [| exact Hall].
  exact (Hall 41 ltac:(lia)).
Qed.

(** C10. When the log exists and has a row beyond the first, what
    [log_to_csv] does is the same for every index argument [i]: the same
    row with the same image name is appended, or the same exception is
    raised. *)
Theorem log_to_csv_ignores_index (violation : Z) (distance : float) (i1 i2 : Z)
    (rows : list (list string)) :
  (1 < List.length rows)%nat ->
  log_to_csv violation distance i1 (Some rows) = log_to_csv violation distance i2 (Some rows).
Proof.
  intros Hlen. apply Nat.ltb_lt in Hlen.
  unfold log_to_csv, bind, get_state. now rewrite Hlen.
Qed.

End LogProperties.

(** ** Worked scenes: the theorems at concrete inputs *)

Section DegenerateRange.
Local Open Scope float_scope.

Lemma Prim2SF_one : Prim2SF 1 = S754_finite false 4503599627370496 (-52).
Proof. vm_compute. reflexivity. Qed.

(** A number in [0, 1) times zero is a zero. *)
Lemma zero_times_unit (u : float) :
  (0 <=? u) = true -> (u <? 1) = true ->
  exists s, Prim2SF (0 * u) = S754_zero s.
Proof.
  rewrite FloatAxioms.leb_spec, FloatAxioms.ltb_spec, mul_spec.
  rewrite Prim2SF_one.
  change (Prim2SF 0) with (S754_zero false).
  unfold SF64mul, SFleb, SFltb.
  destruct (Prim2SF u) as [[|] | [|] | | s m e]; cbn [SFmul SFcompare xorb];
    intros H0 H1; try discriminate; eauto.
Qed.

(** [np.random.uniform(0, 0)] is [0]. *)
Lemma uniform_0_0 (u : float) :
  (0 <=? u) = true -> (u <? 1) = true -> 0 + (0 - 0) * u = 0.
Proof.
  intros H0 H1. change (0 - 0) with 0.
  destruct (zero_times_unit u H0 H1) as [s Hs].
  apply Prim2SF_inj. rewrite add_spec, Hs. now destruct s.
Qed.

(** [np.random.uniform(1, 1)] is [1]. *)
Lemma uniform_1_1 (u : float) :
  (0 <=? u) = true -> (u <? 1) = true -> 1 + (1 - 1) * u = 1.
Proof.
  intros H0 H1. change (1 - 1) with 0.
  destruct (zero_times_unit u H0 H1) as [s Hs].
  apply Prim2SF_inj. rewrite add_spec, Hs, Prim2SF_one. now destruct s.
Qed.

End DegenerateRange.

Section WorkedScenes.
Local Open Scope float_scope.

Lemma demo_stream_unit : unit_stream demo_stream.
Proof. intros k. unfold demo_stream. destruct (k <? 5)%nat; split; reflexivity. Qed.

(** The placement in [demo_world] returns after two resamples: the
    workpiece starts inside the vest, is moved to (5, 5) inside the leg,
    then to (2.5, 2.5). *)
Example demo_placement_two_resamples :
  @collision_check_scene rigid 1 (Some "workpiece") demo_config demo_world = OutOfFuel
  /\ location <$> (objects demo_resolved !! "workpiece") = Some (mkVector 2.5 2.5 0).
Proof. split; vm_compute; reflexivity. Qed.

Lemma collision_check_scene_collision_free_witness :
  @collision_check_scene rigid 5 (Some "workpiece") demo_config demo_world
    = Return (tt, demo_resolved)
  /\ @collision_check_objects rigid (Some "workpiece") (lookup_ref demo_resolved "Ch17_Vest")
       demo_resolved = Return (false, demo_resolved)
  /\ @collision_check_objects rigid (Some "workpiece") (lookup_ref demo_resolved "Link-0")
       demo_resolved = Return (false, demo_resolved).
Proof.
  assert (Hrun : @collision_check_scene rigid 5 (Some "workpiece") demo_config demo_world
                 = Return (tt, demo_resolved)) by (vm_compute; reflexivity).
  split; [exact Hrun |].
  exact (@collision_check_scene_collision_free rigid 5 (Some "workpiece") demo_config
           demo_world demo_resolved Hrun).
Defined.

(** With [stuck_config] every placement is at the origin, inside the vest. *)
Lemma stuck_config_always_collides (rs : nat -> float) :
  unit_stream rs ->
  @resample_collides rigid (Some "workpiece") (lookup_ref demo_world "Ch17_Vest")
    (lookup_ref demo_world "Link-0") stuck_config (set_random_state rs demo_world) = true.
Proof.
  intros Hunit. unfold resample_collides.
  rewrite (randomize_workpiece_run "workpiece"
             (mesh_at (mkVector 0 0 0) [mkVector 0 0 0])) by reflexivity.
  cbn [set_random_state objects random_state demo_world].
  rewrite (alter_ext (placed stuck_config rs)
             (fun o => mkObject (type o) (mkVector 0 0 (z (location o)))
                         (mkVector (x (rotation_euler o)) (y (rotation_euler o))
                                   (stored (radians (0 + (360 - 0) * rs 2%nat))))
                         (mkVector 1 1 1) (matrix_world o) (bound_box o) (data_vertices o)
                         (edit_vertices o) (evaluated_vertices o))).
  - vm_compute. reflexivity.
  - intros o _. unfold placed. cbn [stuck_config SizeRange_x SizeRange_y PositionRange_x
                                     PositionRange_y fst snd].
    rewrite !uniform_0_0, !uniform_1_1 by apply Hunit.
    rewrite stored_one, stored_zero. reflexivity.
Qed.

Lemma collision_check_scene_never_returns_witness :
  (forall rs, unit_stream rs ->
     @resample_collides rigid (Some "workpiece") (lookup_ref demo_world "Ch17_Vest")
       (lookup_ref demo_world "Link-0") stuck_config (set_random_state rs demo_world) = true)
  /\ (forall fuel,
        @collision_check_scene rigid fuel (Some "workpiece") stuck_config
          (set_random_state demo_stream demo_world) = OutOfFuel).
Proof.
  split; [exact stuck_config_always_collides |].
  intros fuel.
  apply (proj1 (@collision_check_scene_never_returns rigid (Some "workpiece") stuck_config
                  demo_world stuck_config_always_collides) demo_stream fuel demo_stream_unit).
  vm_compute. reflexivity.
Defined.

Lemma safety_check_violation_iff_witness :
  exists violation min_distance w',
    @safety_check rigid demo_config safety_world = Return (violation, min_distance, w')
    /\ min_distance = 5 /\ violation = 0%Z.
Proof.
  destruct (@safety_check_violation_iff rigid demo_config safety_world) as [Hreturns Hspec].
  destruct Hreturns as (violation & d & w' & Hrun); [reflexivity | reflexivity |].
  exists violation, d, w'. split; [exact Hrun |].
  destruct (Hspec violation d w' Hrun) as (Hd & _ & _ & Heq & _).
  assert (Hfive : d = 5) by (vm_compute in Hd; congruence).
  split; [exact Hfive |]. apply Heq. rewrite Hfive. reflexivity.
Defined.

(** The threshold just above the distance is violated. *)
Example safety_check_below_threshold :
  exists w', @safety_check rigid (mkConfig (1, 1) (1, 1) (0, 10) (0, 10) 5.5) safety_world
             = Return (1%Z, 5, w').
Proof. eexists. vm_compute. reflexivity. Qed.


(** The distance returned is not always the minimum of the pairwise
    distances.  Where the only pair has no number as its distance, [inf] is
    returned, which is the distance of no pair; and for two vertices [2^70]
    apart, [inf] is returned as well, the square overflowing single
    precision. *)
Lemma find_closest_distance_not_minimum :
  (@find_closest_distance_between_objects rigid (Some "Hand") (Some "Gloves") nan_only_world
     = Return (Some float_inf, @evaluate_view_layer rigid nan_only_world)
   /\ @world_vertices rigid (mesh_at (mkVector 0 0 0) [mkVector 0 0 0]) <> []
   /\ @world_vertices rigid (mesh_at (mkVector 0 0 0) [mkVector nan 0 0]) <> []
   /\ ~ (exists v1 v2,
           In v1 (@world_vertices rigid (mesh_at (mkVector 0 0 0) [mkVector 0 0 0]))
           /\ In v2 (@world_vertices rigid (mesh_at (mkVector 0 0 0) [mkVector nan 0 0]))
           /\ float_inf = vec_length (vec_sub v1 v2)))
  /\ (@find_closest_distance_between_objects rigid (Some "Hand") (Some "Gloves")
         far_apart_world
       = Return (Some float_inf, @evaluate_view_layer rigid far_apart_world)
      /\ @world_vertices rigid (mesh_at (mkVector 0 0 0) [mkVector 0x1p+70 0 0])
         = [mkVector 0x1p+70 0 0]
      /\ (0x1p+70 <? float_inf) = true).
Proof.
  split; [| repeat split; vm_compute; reflexivity].
  split; [vm_compute; reflexivity |].
  split; [discriminate |]. split; [discriminate |].
  intros (v1 & v2 & Hv1 & Hv2 & Hd).
  vm_compute in Hv1, Hv2.
  destruct Hv1 as [<- | []]. destruct Hv2 as [<- | []].
  assert (Hnumber : (float_inf =? float_inf) = true) by reflexivity.
  rewrite Hd in Hnumber. vm_compute in Hnumber. discriminate.
Qed.

Lemma safety_check_absent_or_not_mesh_witness :
  is_mesh_object hand_only "Gloves" = false
  /\ @find_closest_distance_between_objects rigid (lookup_ref hand_only "Hand")
       (lookup_ref hand_only "Gloves") hand_only = Return (None, hand_only)
  /\ @safety_check rigid demo_config hand_only = Raise TypeError.
Proof.
  assert (Hgloves : is_mesh_object hand_only "Gloves" = false) by reflexivity.
  split; [exact Hgloves |].
  destruct (@safety_check_absent_or_not_mesh rigid demo_config hand_only (or_intror Hgloves))
    as (_ & _ & Hnone & Hraise).
  split; [exact Hnone | exact Hraise].
Defined.


Lemma is_point_within_xy_area_closed_witness :
  is_point_within_xy_area (mkVector 1 2 0) 1 3 2 4 = true
  /\ is_point_within_xy_area (mkVector 3 4 0) 1 3 2 4 = true
  /\ is_point_within_xy_area (mkVector 0.5 3 0) 1 3 2 4 = false.
Proof.
  split; [| split].
  - apply (proj1 (proj2 (is_point_within_xy_area_closed (mkVector 1 2 0) 1 3 2 4)));
      [reflexivity | left; reflexivity | reflexivity | reflexivity].
  - apply (proj2 (proj2 (is_point_within_xy_area_closed (mkVector 3 4 0) 1 3 2 4)));
      [reflexivity | right; reflexivity | reflexivity | reflexivity].
  - reflexivity.
Defined.

Lemma log_to_csv_continues_index_witness :
  @log_to_csv demo_float_repr 1 2.5 7 (Some demo_log) =
  Return (tt, Some (demo_log ++ [["image_000042.jpg"; "1"; "2.5"]])).
Proof.
  apply (proj1 (@log_to_csv_continues_index demo_float_repr 1 2.5 7
                  [ ["ImageName"; "Violation"; "Distance"]; ["image_000040.jpg"; "0"; "5.0"] ]
                  ["1"; "2.5"] ltac:(discriminate))).
Defined.

(** A log that does not exist yet gets the header and the index argument. *)
Example log_to_csv_fresh :
  @log_to_csv demo_float_repr 0 5 7 None =
  Return (tt, Some [ ["ImageName"; "Violation"; "Distance"]; ["image_000007.jpg"; "0"; "5.0"] ]).
Proof. reflexivity. Qed.

Lemma find_closest_distance_empty_mesh_witness :
  @find_closest_distance_between_objects rigid (Some "Hand") (Some "Gloves")
    (hand_gloves [] [mkVector 3 4 0])
    = Return (Some float_inf, @evaluate_view_layer rigid (hand_gloves [] [mkVector 3 4 0]))
  /\ @safety_check rigid demo_config (hand_gloves [] [mkVector 3 4 0])
     = Return (0%Z, float_inf, @evaluate_view_layer rigid (hand_gloves [] [mkVector 3 4 0])).
Proof.
  destruct (@find_closest_distance_empty_mesh rigid demo_config "Hand" "Gloves"
              (mesh_at (mkVector 0 0 0) []) (mesh_at (mkVector 0 0 0) [mkVector 3 4 0])
              (hand_gloves [] [mkVector 3 4 0]) eq_refl eq_refl eq_refl eq_refl
              (or_introl eq_refl)) as [Hinf Hsafe].
  split; [exact Hinf | now apply Hsafe].
Defined.

Lemma log_to_csv_ignores_index_witness :
  @log_to_csv demo_float_repr 1 2.5 0 (Some demo_log)
  = @log_to_csv demo_float_repr 1 2.5 7 (Some demo_log).
Proof.
  apply (@log_to_csv_ignores_index demo_float_repr 1 2.5 0 7 demo_log).
  cbn [demo_log List.length]. lia.
Defined.

End WorkedScenes.

(** * Further properties *)

(** ** Finite binary64 numbers *)

Section FiniteFloats.
Local Open Scope float_scope.

Lemma is_finite_cases (a : float) :
  is_finite a = true ->
  (exists s, Prim2SF a = S754_zero s) \/ (exists s m e, Prim2SF a = S754_finite s m e).
Proof.
  unfold is_finite, is_nan, is_infinity.
  rewrite (FloatAxioms.eqb_spec a a), (FloatAxioms.eqb_spec (abs a) infinity), abs_spec.
  change (Prim2SF infinity) with (S754_infinity false).
  destruct (Prim2SF a) as [s | s | | s m e]; cbn; try discriminate; eauto.
  destruct s; discriminate.
Qed.


(** [a - a] is [+0] for a finite [a]. *)
Lemma sub_diag (a : float) : is_finite a = true -> Prim2SF (a - a) = S754_zero false.
Proof.
  intros Ha. rewrite sub_spec. unfold SF64sub.
  destruct (is_finite_cases a Ha) as [[s ->] | (s & m & e & ->)].
  - now destruct s.
  - cbn [SFsub]. rewrite Z.sub_diag. reflexivity.
Qed.




End FiniteFloats.

(** ** The transform sampler *)

Section Sampler.
Local Open Scope float_scope.













(** X2. A placement does not depend on the one before: after
    [randomize_workpiece] has run twice, the scene is the one that a single
    run leaves when the generator produces the numbers of the second run. *)
Theorem randomize_workpiece_forgets (workpiece : pyref) (config : Config) (w w1 w2 : World)
    (r1 r2 : pyref) :
  randomize_workpiece workpiece config w = Return (r1, w1) ->
  randomize_workpiece r1 config w1 = Return (r2, w2) ->
  randomize_workpiece workpiece config (set_random_state (random_state w1) w)
  = Return (r2, w2).
Proof.
  intros H1 H2.
  destruct (randomize_workpiece_returns _ _ _ _ _ H1) as (n & o & -> & -> & Hn & -> & Hfin).
  assert (Hn1 : objects (mkWorld (alter (placed config (random_state w)) n (objects w))
                                 (fun k => random_state w (5 + k)%nat)) !! n
                = Some (placed config (random_state w) o))
    by (cbn [objects]; now rewrite lookup_alter_eq, Hn).
  rewrite (randomize_workpiece_run n _ config _ Hn1 Hfin) in H2.
  injection H2 as <- <-.
  rewrite (randomize_workpiece_run n o) by assumption.
  cbn [objects random_state set_random_state]. now rewrite alter_placed_placed.
Qed.

Lemma randomize_workpiece_forgets_witness :
  exists w1 w2,
    randomize_workpiece (Some "workpiece") demo_config demo_world = Return (Some "workpiece", w1)
    /\ randomize_workpiece (Some "workpiece") demo_config w1 = Return (Some "workpiece", w2)
    /\ randomize_workpiece (Some "workpiece") demo_config
         (set_random_state (random_state w1) demo_world) = Return (Some "workpiece", w2).
Proof.
  eexists. eexists.
  assert (H1 : randomize_workpiece (Some "workpiece") demo_config demo_world
               = Return (Some "workpiece", _))
    by exact (randomize_workpiece_run "workpiece" (mesh_at (mkVector 0 0 0) [mkVector 0 0 0])
                demo_config demo_world eq_refl eq_refl).
  split; [exact H1 |].
  assert (H2 : randomize_workpiece (Some "workpiece") demo_config
                 (mkWorld (alter (placed demo_config demo_stream) "workpiece" demo_objects)
                          (fun k => demo_stream (5 + k)%nat))
               = Return (Some "workpiece", _))
    by (apply (randomize_workpiece_run "workpiece"
                 (placed demo_config demo_stream (mesh_at (mkVector 0 0 0) [mkVector 0 0 0])));
        reflexivity).
  split; [exact H2 |].
  exact (randomize_workpiece_forgets _ _ _ _ _ _ _ H1 H2).
Defined.






End Sampler.

(** ** The bounding area *)

Section BoundingBox.
Context `{Depsgraph}.
Local Open Scope float_scope.

Lemma lookup_evaluated (n : string) (o : Object) (w : World) :
  objects w !! n = Some o ->
  objects (evaluate_view_layer w) !! n = Some (evaluate_object o).
Proof. intros Hn. now rewrite lookup_evaluate_view_layer, Hn. Qed.

Lemma bounding_area_nonempty (objs : gmap string Object) (n : string) (o : Object) :
  objs !! n = Some o -> bound_box o <> [] ->
  exists min_x max_x min_y max_y,
    bounding_area objs (Some n) = inr (min_x, max_x, min_y, max_y).
Proof.
  intros Hn Hne. unfold bounding_area. rewrite Hn.
  destruct (bound_box o) as [| c cs]; [congruence |].
  cbn [map py_min py_max]. eauto.
Qed.

Lemma in_corner_coordinate (proj : Vector -> float) (m : Matrix) (corners : list Vector)
    (v : float) :
  In v (map proj (map (matmul_vec m) corners)) ->
  exists corner, In corner corners /\ proj (matmul_vec m corner) = v.
Proof.
  intros Hv. apply in_map_iff in Hv as (p & <- & Hp).
  apply in_map_iff in Hp as (c & <- & Hc). eauto.
Qed.

(** X5. For an object of the scene with a bounding box whose corners have
    numbers as world coordinates, [get_world_bounding_box_xy] brings the
    world matrices up to date and returns a rectangle ([min_x <= max_x],
    [min_y <= max_y]) that contains every corner of the box in world space
    and is the least such: each of its four bounds is the coordinate of a
    corner. *)
Theorem get_world_bounding_box_xy_encloses (n : string) (o : Object) (w : World) :
  objects w !! n = Some o -> bound_box o <> [] ->
  (forall corner, In corner (bound_box o) ->
     number (x (matmul_vec (matrix_world (evaluate_object o)) corner))
     /\ number (y (matmul_vec (matrix_world (evaluate_object o)) corner))) ->
  exists min_x max_x min_y max_y,
    get_world_bounding_box_xy (Some n) w
      = Return ((min_x, max_x, min_y, max_y), evaluate_view_layer w)
    /\ (min_x <=? max_x) = true /\ (min_y <=? max_y) = true
    /\ (forall corner, In corner (bound_box o) ->
          is_point_within_xy_area (matmul_vec (matrix_world (evaluate_object o)) corner)
            min_x max_x min_y max_y = true)
    /\ (exists c, In c (bound_box o)
                  /\ x (matmul_vec (matrix_world (evaluate_object o)) c) = min_x)
    /\ (exists c, In c (bound_box o)
                  /\ x (matmul_vec (matrix_world (evaluate_object o)) c) = max_x)
    /\ (exists c, In c (bound_box o)
                  /\ y (matmul_vec (matrix_world (evaluate_object o)) c) = min_y)
    /\ (exists c, In c (bound_box o)
                  /\ y (matmul_vec (matrix_world (evaluate_object o)) c) = max_y).
Proof.
  intros Hn Hne Hnum.
  assert (Hn' := lookup_evaluated n o w Hn).
  destruct (bounding_area_nonempty _ n (evaluate_object o) Hn' Hne)
    as (min_x & max_x & min_y & max_y & Harea).
  exists min_x, max_x, min_y, max_y.
  rewrite get_world_bounding_box_xy_run, Harea.
  split; [reflexivity |].
  assert (Hin := bounding_area_contains_corners _ n (evaluate_object o) _ _ _ _
                   Hn' Harea Hnum).
  assert (Hwf : (min_x <=? max_x) = true /\ (min_y <=? max_y) = true).
  { destruct (bound_box o) as [| c cs] eqn:Hbb; [congruence |].
    specialize (Hin c). cbn [bound_box evaluate_object with_matrix_world] in Hin.
    rewrite Hbb in Hin. specialize (Hin (or_introl eq_refl)).
    unfold is_point_within_xy_area in Hin.
    apply andb_true_iff in Hin as [Hx Hy].
    apply andb_true_iff in Hx as [Hx1 Hx2]. apply andb_true_iff in Hy as [Hy1 Hy2].
    split; eapply leb_trans; eassumption. }
  split; [apply Hwf |]. split; [apply Hwf |].
  split; [exact Hin |].
  unfold bounding_area in Harea. rewrite Hn' in Harea.
  cbn [bound_box evaluate_object with_matrix_world] in Harea.
  set (m := matrix_world (evaluate_object o)) in *.
  change (matrix_world (with_matrix_world
                          (compose_matrix (location o) (rotation_euler o) (scale o)) o))
    with m in Harea.
  destruct (py_min (map x _)) as [e | a] eqn:Ha; [discriminate |].
  destruct (py_max (map x _)) as [e | b] eqn:Hb; [discriminate |].
  destruct (py_min (map y _)) as [e | c] eqn:Hc; [discriminate |].
  destruct (py_max (map y _)) as [e | d] eqn:Hd; [discriminate |].
  injection Harea as <- <- <- <-.
  repeat split.
  - apply (in_corner_coordinate x). now apply py_min_attained.
  - apply (in_corner_coordinate x). now apply py_max_attained.
  - apply (in_corner_coordinate y). now apply py_min_attained.
  - apply (in_corner_coordinate y). now apply py_max_attained.
Qed.

(** X6. [get_world_bounding_box_xy] raises [AttributeError] on [None] and
    [ValueError] (from [min()]) on an object whose bounding box has no
    corner; on every other object of the scene it returns, whatever the
    coordinates are, and leaves the scene with its world matrices up to
    date. *)
Theorem get_world_bounding_box_xy_errors (w : World) :
  get_world_bounding_box_xy None w = Raise AttributeError
  /\ (forall n o, objects w !! n = Some o -> bound_box o = [] ->
        get_world_bounding_box_xy (Some n) w = Raise ValueError)
  /\ (forall n o, objects w !! n = Some o -> bound_box o <> [] ->
        exists area,
          get_world_bounding_box_xy (Some n) w = Return (area, evaluate_view_layer w)).
Proof.
  split; [reflexivity |]. split.
  - intros n o Hn Hbb. rewrite get_world_bounding_box_xy_run.
    unfold bounding_area. rewrite (lookup_evaluated n o w Hn).
    cbn [bound_box evaluate_object with_matrix_world]. rewrite Hbb. reflexivity.
  - intros n o Hn Hne.
    destruct (bounding_area_nonempty _ n (evaluate_object o) (lookup_evaluated n o w Hn) Hne)
      as (a & b & c & d & Harea).
    exists (a, b, c, d). now rewrite get_world_bounding_box_xy_run, Harea.
Qed.

End BoundingBox.

Lemma get_world_bounding_box_xy_encloses_witness :
  @get_world_bounding_box_xy rigid (Some "Link-0") demo_world
  = Return ((4, 6, 4, 6)%float, @evaluate_view_layer rigid demo_world).
Proof.
  destruct (@get_world_bounding_box_xy_encloses rigid "Link-0"
              (mesh_at (mkVector 5 5 0) unit_box) demo_world eq_refl)
    as (min_x & max_x & min_y & max_y & Hrun & _).
  - discriminate.
  - intros corner Hc. cbn [mesh_at bound_box unit_box In] in Hc.
    repeat (destruct Hc as [<- | Hc]; [split; reflexivity |]). destruct Hc.
  - rewrite Hrun. vm_compute in Hrun. injection Hrun as <- <- <- <-. reflexivity.
Defined.

(** ** More on the collision test *)

Section CollisionEdges.
Context `{Depsgraph}.

(** X7. A check that returned can be repeated: run again in the scene it
    left, [collision_check_objects] gives the same answer and leaves the
    scene as it is, and for any other obstacle it answers as it would have
    in the scene before the first check, again without changing the
    scene. *)
Theorem collision_check_objects_repeatable (obj1 obj2 : pyref) (w : World) (c : bool)
    (w' : World) :
  collision_check_objects obj1 obj2 w = Return (c, w') ->
  collision_check_objects obj1 obj2 w' = Return (c, w')
  /\ (forall obj3,
        collision_check_objects obj1 obj3 w' = collision_check_objects obj1 obj3 w)
  /\ (forall obj3 c3 w3, collision_check_objects obj1 obj3 w' = Return (c3, w3) -> w3 = w').
Proof.
  intros Hrun.
  destruct (collision_check_objects_stable _ _ _ _ _ Hrun) as [Hagain Hfix].
  destruct (collision_check_objects_run _ _ _ _ _ Hrun) as [_ Hsame].
  split; [exact Hagain |]. split; [exact Hsame | exact Hfix].
Qed.

Lemma collision_check_objects_no_obstacle (n : string) (o : Object) (w : World) :
  objects w !! n = Some o -> type o = MESH ->
  collision_check_objects (Some n) None w = Raise AttributeError.
Proof.
  intros Hn Ht. now rewrite (collision_check_objects_mesh n o).
Qed.

Lemma lookup_ref_None (w : World) (k : string) :
  objects w !! k = None -> lookup_ref w k = None.
Proof. intros Hk. unfold lookup_ref. now rewrite Hk. Qed.

(** X8. A missing obstacle is an error for a mesh probe, not a silent
    [False]: [collision_check_objects] raises [AttributeError] when the
    obstacle is [None], and so does [collision_check_scene], for every bound
    on the loop, when 'Ch17_Vest' is not in the scene, or when 'Link-0' is
    not and the check against the vest returns. *)
Theorem collision_check_missing_obstacle (n : string) (o : Object) (config : Config)
    (w : World) :
  objects w !! n = Some o -> type o = MESH ->
  collision_check_objects (Some n) None w = Raise AttributeError
  /\ (objects w !! "Ch17_Vest" = None ->
      forall fuel, collision_check_scene fuel (Some n) config w = Raise AttributeError)
  /\ (objects w !! "Link-0" = None ->
      forall c w1,
        collision_check_objects (Some n) (lookup_ref w "Ch17_Vest") w = Return (c, w1) ->
        forall fuel, collision_check_scene fuel (Some n) config w = Raise AttributeError).
Proof.
  intros Hn Ht.
  split; [now apply (collision_check_objects_no_obstacle n o) |]. split.
  - intros Hvest fuel. unfold collision_check_scene, bind at 1 2.
    rewrite !objects_get_lookup_ref, (lookup_ref_None w "Ch17_Vest" Hvest).
    unfold bind. now rewrite (collision_check_objects_no_obstacle n o).
  - intros Hleg c w1 Hvest fuel. unfold collision_check_scene, bind at 1 2.
    rewrite !objects_get_lookup_ref, (lookup_ref_None w "Link-0" Hleg).
    unfold bind at 1. rewrite Hvest. unfold bind.
    destruct (collision_check_objects_run _ _ _ _ _ Hvest) as [_ Hsame].
    now rewrite Hsame, (collision_check_objects_no_obstacle n o).
Qed.

(** X9. When neither check finds a collision in the scene it is called
    in, [collision_check_scene] returns for every bound on the loop, zero
    included; no number of the generator is used and the scene is the one
    that the two checks leave. *)
Theorem collision_check_scene_free_on_entry (workpiece : pyref) (config : Config)
    (w w1 : World) (fuel : nat) :
  both_checks workpiece (lookup_ref w "Ch17_Vest") (lookup_ref w "Link-0") w
    = Return ((false, false), w1) ->
  collision_check_scene fuel workpiece config w = Return (tt, w1)
  /\ w1 = checked_state workpiece w
  /\ random_state w1 = random_state w.
Proof.
  intros Hboth. unfold collision_check_scene, bind at 1 2.
  rewrite !objects_get_lookup_ref.
  unfold both_checks, bind in Hboth. unfold bind.
  destruct (collision_check_objects workpiece (lookup_ref w "Ch17_Vest") w)
    as [[c1 wa] | e |] eqn:Hc1; try discriminate.
  destruct (collision_check_objects workpiece (lookup_ref w "Link-0") wa)
    as [[c2 wb] | e |] eqn:Hc2; try discriminate.
  injection Hboth as -> -> ->.
  destruct (collision_check_objects_stable _ _ _ _ _ Hc1) as [_ Hfix].
  assert (Hw : w1 = wa) by (eapply Hfix; exact Hc2). subst wa.
  destruct (collision_check_objects_run _ _ _ _ _ Hc1) as [Hstate _].
  split; [destruct fuel; reflexivity |]. split; [exact Hstate |].
  rewrite Hstate. unfold checked_state.
  destruct workpiece as [n |]; [| reflexivity].
  destruct (objects w !! n) as [o |]; [| reflexivity].
  destruct (is_mesh (type o)); reflexivity.
Qed.

(** X10. A workpiece that is [None] or is not a mesh is never tested and
    never moved: [collision_check_scene] returns at once, for every bound on
    the loop, with the scene and the generator as they were, even when the
    obstacles are missing. *)
Theorem collision_check_scene_not_mesh (workpiece : pyref) (config : Config) (w : World)
    (fuel : nat) :
  workpiece = None
  \/ (exists n o, workpiece = Some n /\ objects w !! n = Some o /\ type o <> MESH) ->
  collision_check_scene fuel workpiece config w = Return (tt, w).
Proof.
  intros Hwp.
  assert (Hcheck : forall obj2, collision_check_objects workpiece obj2 w = Return (false, w)).
  { intros obj2. destruct Hwp as [-> | (n & o & -> & Hn & Ht)]; [reflexivity |].
    now apply (collision_check_objects_not_mesh n o). }
  unfold collision_check_scene, bind. rewrite !objects_get_lookup_ref, !Hcheck.
  destruct fuel; reflexivity.
Qed.

End CollisionEdges.

Lemma collision_check_objects_repeatable_witness :
  exists w',
    @collision_check_objects rigid (Some "workpiece") (Some "Ch17_Vest") demo_world
      = Return (true, w')
    /\ @collision_check_objects rigid (Some "workpiece") (Some "Ch17_Vest") w'
       = Return (true, w').
Proof.
  eexists.
  assert (Hrun : @collision_check_objects rigid (Some "workpiece") (Some "Ch17_Vest")
                   demo_world = Return (true, _)) by (vm_compute; reflexivity).
  split; [exact Hrun |].
  exact (proj1 (@collision_check_objects_repeatable rigid _ _ _ _ _ Hrun)).
Defined.

Lemma collision_check_missing_obstacle_witness :
  objects no_leg_world !! "Link-0" = None
  /\ forall fuel,
       @collision_check_scene rigid fuel (Some "workpiece") demo_config no_leg_world
       = Raise AttributeError.
Proof.
  split; [reflexivity |]. intros fuel.
  destruct (@collision_check_missing_obstacle rigid "workpiece"
              (mesh_at (mkVector 0 0 0) [mkVector 0 0 0]) demo_config no_leg_world
              eq_refl eq_refl) as (_ & _ & Hleg).
  eapply (Hleg eq_refl). vm_compute. reflexivity.
Defined.

(** X11. [collision_check_objects] is not symmetric: a plate whose vertices
    are its corners, around a small box, does not collide with the box (no
    vertex of the plate is within the area of the box), while the box
    collides with the plate. *)
Theorem collision_check_objects_not_symmetric :
  exists (H : Depsgraph) (w : World) (obj1 obj2 : pyref) (w1 w2 : World),
    collision_check_objects obj1 obj2 w = Return (false, w1)
    /\ collision_check_objects obj2 obj1 w = Return (true, w2).
Proof.
  exists rigid, plate_and_box, (Some "plate"), (Some "box").
  eexists. eexists. split; vm_compute; reflexivity.
Qed.

Lemma collision_check_scene_free_on_entry_witness :
  exists w1,
    @collision_check_scene rigid 0 (Some "workpiece") demo_config free_world = Return (tt, w1)
    /\ location <$> (objects w1 !! "workpiece") = Some (mkVector 3 3 0)
    /\ random_state w1 = demo_stream.
Proof.
  eexists.
  assert (Hboth : @both_checks rigid (Some "workpiece") (lookup_ref free_world "Ch17_Vest")
                    (lookup_ref free_world "Link-0") free_world
                  = Return ((false, false), _)) by (vm_compute; reflexivity).
  destruct (@collision_check_scene_free_on_entry rigid (Some "workpiece") demo_config
              free_world _ 0 Hboth) as (Hrun & _ & Hrs).
  split; [exact Hrun |]. split; [vm_compute; reflexivity | exact Hrs].
Defined.

Lemma collision_check_scene_not_mesh_witness :
  @collides rigid (Some "workpiece") (Some "Ch17_Vest") None empty_workpiece_world = false
  /\ @collision_check_scene rigid 0 (Some "workpiece") demo_config empty_workpiece_world
     = Return (tt, empty_workpiece_world).
Proof.
  split; [reflexivity |].
  apply (@collision_check_scene_not_mesh rigid). right.
  exists "workpiece", (mkObject EMPTY (mkVector 0 0 0) (mkVector 0 0 0) (mkVector 1 1 1)
                         identity_matrix unit_box [mkVector 0 0 0] None [mkVector 0 0 0]).
  split; [reflexivity |]. split; [reflexivity | discriminate].
Defined.

(** ** When the rejection loop returns *)

Section Convergence.
Context `{Depsgraph}.

Lemma drop_draws_add (a b : nat) (rs : nat -> float) :
  drop_draws a (drop_draws b rs) = drop_draws (a + b) rs.
Proof. unfold drop_draws. symmetry. apply Nat.iter_add. Qed.

Lemma resample_and_check_mesh (n : string) (o : Object) (vest panda_leg : pyref)
    (config : Config) (w : World) :
  objects w !! n = Some o -> type o = MESH -> finite_ranges config = true ->
  resample_and_check (Some n) vest panda_leg config w =
  match probe_hits (checked_objects n (alter (placed config (random_state w)) n (objects w)))
          n vest,
        probe_hits (checked_objects n (alter (placed config (random_state w)) n (objects w)))
          n panda_leg with
  | inr check1, inr check2 =>
      Return ((check1, check2),
              mkWorld (checked_objects n (alter (placed config (random_state w)) n (objects w)))
                      (drop_draws 5 (random_state w)))
  | inl e, _ | inr _, inl e => Raise e
  end.
Proof.
  intros Hn Ht Hfin. unfold resample_and_check, bind.
  rewrite (randomize_workpiece_run n o) by assumption.
  rewrite (both_checks_mesh n (placed config (random_state w) o)).
  - reflexivity.
  - cbn [objects]. now rewrite lookup_alter_eq, Hn.
  - exact Ht.
Qed.

Lemma resample_and_check_finite (workpiece vest panda_leg : pyref) (config : Config)
    (w : World) (checks : bool * bool) (w' : World) :
  resample_and_check workpiece vest panda_leg config w = Return (checks, w') ->
  finite_ranges config = true.
Proof.
  unfold resample_and_check, bind.
  destruct (randomize_workpiece workpiece config w) as [[wp1 w1] | e |] eqn:Hr;
    try discriminate.
  intros _. now destruct (randomize_workpiece_returns _ _ _ _ _ Hr) as (n & o & _ & _ & _ & _ & Hfin).
Qed.

Lemma resample_collides_check (workpiece vest panda_leg : pyref) (config : Config)
    (w : World) :
  resample_collides workpiece vest panda_leg config w =
  match resample_and_check workpiece vest panda_leg config w with
  | Return ((check1, check2), _) => check1 || check2
  | _ => false
  end.
Proof.
  unfold resample_collides, resample_and_check, collides, bind.
  destruct (randomize_workpiece workpiece config w) as [[wp' w'] | e |]; reflexivity.
Qed.

Lemma rejection_loop_turn (fuel : nat) (workpiece vest panda_leg : pyref) (config : Config)
    (check1 check2 : bool) (w : World) :
  rejection_loop (S fuel) workpiece vest panda_leg config check1 check2 w =
  if check1 || check2 then
    match resample_and_check workpiece vest panda_leg config w with
    | Return ((c1, c2), w') => rejection_loop fuel workpiece vest panda_leg config c1 c2 w'
    | Raise e => Raise e
    | OutOfFuel => OutOfFuel
    end
  else Return (tt, w).
Proof.
  rewrite rejection_loop_S. destruct (check1 || check2); [| reflexivity].
  unfold resample_and_check, both_checks, bind.
  destruct (randomize_workpiece workpiece config w) as [[wp' w'] | e |] eqn:Hr;
    try reflexivity.
  destruct (randomize_workpiece_returns _ _ _ _ _ Hr) as (n & o & -> & -> & _).
  destruct (collision_check_objects (Some n) vest w') as [[c1 w1] | e |]; try reflexivity.
  destruct (collision_check_objects (Some n) panda_leg w1) as [[c2 w2] | e |]; reflexivity.
Qed.

(** A turn of the loop in a scene that the loop reached is the turn in the
    scene it started from, with the generator as it is now. *)
Lemma resample_and_check_same (n : string) (o ok : Object) (vest panda_leg : pyref)
    (config : Config) (objs : gmap string Object) (w : World) :
  objs !! n = Some o -> type o = MESH ->
  objects w !! n = Some ok -> type ok = MESH ->
  finite_ranges config = true ->
  same_resamples config n objs (objects w) ->
  resample_and_check (Some n) vest panda_leg config w
  = resample_and_check (Some n) vest panda_leg config (mkWorld objs (random_state w)).
Proof.
  intros Hn Ht Hnk Htk Hfin Hsame.
  rewrite (resample_and_check_mesh n ok) by assumption.
  rewrite (resample_and_check_mesh n o) by assumption.
  cbn [objects random_state]. now rewrite (Hsame (random_state w)).
Qed.

Lemma rejection_loop_converges (n : string) (o : Object) (vest panda_leg : pyref)
    (config : Config) (objs : gmap string Object) (wk : World) :
  objs !! n = Some o -> type o = MESH -> finite_ranges config = true ->
  forall k fuel check1 check2 w ok,
    check1 || check2 = true ->
    objects w !! n = Some ok -> type ok = MESH ->
    same_resamples config n objs (objects w) ->
    (forall j, (j < k)%nat ->
       resample_collides (Some n) vest panda_leg config
         (mkWorld objs (drop_draws (j * 5) (random_state w))) = true) ->
    resample_and_check (Some n) vest panda_leg config
      (mkWorld objs (drop_draws (k * 5) (random_state w))) = Return ((false, false), wk) ->
    ((k < fuel)%nat ->
       rejection_loop fuel (Some n) vest panda_leg config check1 check2 w = Return (tt, wk))
    /\ ((fuel <= k)%nat ->
        rejection_loop fuel (Some n) vest panda_leg config check1 check2 w = OutOfFuel).
Proof.
  intros Hn Ht Hfin.
  induction k as [| k IH]; intros fuel check1 check2 w ok Hc Hnk Htk Hsame Hbusy Hfree.
  - destruct fuel as [| fuel].
    + split; [lia |]. intros _. cbn [rejection_loop]. now rewrite Hc.
    + split; [| lia]. intros _.
      rewrite rejection_loop_turn, Hc.
      rewrite (resample_and_check_same n o ok _ _ config objs) by assumption.
      change (drop_draws (0 * 5) (random_state w)) with (fun j => random_state w j) in Hfree.
      change (mkWorld objs (fun j => random_state w j))
        with (mkWorld objs (random_state w)) in Hfree.
      rewrite Hfree. destruct fuel; reflexivity.
  - destruct fuel as [| fuel].
    + split; [lia |]. intros _. cbn [rejection_loop]. now rewrite Hc.
    + rewrite rejection_loop_turn, Hc.
      rewrite (resample_and_check_same n o ok _ _ config objs) by assumption.
      assert (H0 := Hbusy 0%nat ltac:(lia)).
      change (drop_draws (0 * 5) (random_state w)) with (fun j => random_state w j) in H0.
      change (mkWorld objs (fun j => random_state w j))
        with (mkWorld objs (random_state w)) in H0.
      rewrite resample_collides_check in H0.
      rewrite (resample_and_check_mesh n o) in H0 |- * by assumption.
      cbn [objects random_state] in H0 |- *.
      set (O := checked_objects n (alter (placed config (random_state w)) n objs)) in *.
      destruct (probe_hits O n vest) as [e | c1]; [discriminate |].
      destruct (probe_hits O n panda_leg) as [e | c2]; [discriminate |].
      assert (Hstep := IH fuel c1 c2 (mkWorld O (drop_draws 5 (random_state w)))
                         (evaluate_object (flush_editmode (placed config (random_state w) o)))
                         H0).
      cbn [objects random_state] in Hstep.
      destruct Hstep as [Hret Hout].
      * unfold O. apply lookup_checked_objects_probe. now rewrite lookup_alter_eq, Hn.
      * now rewrite type_evaluate_flush.
      * intros rs'. unfold O. now rewrite checked_objects_placed, alter_placed_placed.
      * intros j Hj. rewrite drop_draws_add.
        replace (j * 5 + 5)%nat with (S j * 5)%nat by lia. apply Hbusy. lia.
      * rewrite drop_draws_add.
        replace (k * 5 + 5)%nat with (S k * 5)%nat by lia. exact Hfree.
      * split; intros Hfuel; [apply Hret | apply Hout]; lia.
Qed.

(** X12. The loop of [collision_check_scene] stops at the first placement
    that is free.  For a workpiece that collides on entry: when the first [k]
    placements that the generator gives (five numbers each) collide and the
    next one is free of both obstacles, [collision_check_scene] returns the
    scene of that placement for every bound above [k] on the number of
    turns, and is still running at every bound up to [k]; [5 * (k + 1)]
    numbers of the generator are used. *)
Theorem collision_check_scene_first_free (workpiece : pyref) (config : Config) (w wk : World)
    (k : nat) :
  collides workpiece (lookup_ref w "Ch17_Vest") (lookup_ref w "Link-0") w = true ->
  (forall j, (j < k)%nat ->
     resample_collides workpiece (lookup_ref w "Ch17_Vest") (lookup_ref w "Link-0") config
       (set_random_state (drop_draws (j * 5) (random_state w)) w) = true) ->
  resample_and_check workpiece (lookup_ref w "Ch17_Vest") (lookup_ref w "Link-0") config
    (set_random_state (drop_draws (k * 5) (random_state w)) w) = Return ((false, false), wk) ->
  (forall fuel, (k < fuel)%nat ->
     collision_check_scene fuel workpiece config w = Return (tt, wk))
  /\ (forall fuel, (fuel <= k)%nat ->
        collision_check_scene fuel workpiece config w = OutOfFuel)
  /\ random_state wk = drop_draws (S k * 5) (random_state w).
Proof.
  intros Hc Hbusy Hfree.
  destruct (collides_mesh _ _ _ _ Hc) as (n & o & -> & Hn & Ht).
  pose proof (resample_and_check_finite _ _ _ _ _ _ _ Hfree) as Hfin.
  assert (Hrs : random_state wk = drop_draws (S k * 5) (random_state w)).
  { rewrite (resample_and_check_mesh n o) in Hfree by assumption.
    cbn [objects random_state set_random_state] in Hfree.
    destruct (probe_hits _ n (lookup_ref w "Ch17_Vest")) as [e | c1]; [discriminate |].
    destruct (probe_hits _ n (lookup_ref w "Link-0")) as [e | c2]; [discriminate |].
    injection Hfree as _ _ <-. reflexivity. }
  assert (Hscene : exists c1 c2, c1 || c2 = true /\ forall fuel,
            collision_check_scene fuel (Some n) config w
            = rejection_loop fuel (Some n) (lookup_ref w "Ch17_Vest") (lookup_ref w "Link-0")
                config c1 c2 (mkWorld (checked_objects n (objects w)) (random_state w))).
  { unfold collides in Hc. rewrite (both_checks_mesh n o) in Hc by assumption.
    assert (Hboth := both_checks_mesh n o (lookup_ref w "Ch17_Vest") (lookup_ref w "Link-0")
                       w Hn Ht).
    destruct (probe_hits _ n (lookup_ref w "Ch17_Vest")) as [e | c1]; [discriminate |].
    destruct (probe_hits _ n (lookup_ref w "Link-0")) as [e | c2]; [discriminate |].
    exists c1, c2. split; [exact Hc |]. intros fuel.
    unfold collision_check_scene, bind at 1 2. rewrite !objects_get_lookup_ref.
    unfold both_checks, bind in Hboth. unfold bind.
    destruct (collision_check_objects (Some n) (lookup_ref w "Ch17_Vest") w)
      as [[c1' w1] | e |]; try discriminate.
    destruct (collision_check_objects (Some n) (lookup_ref w "Link-0") w1)
      as [[c2' w2] | e |]; try discriminate.
    injection Hboth as -> -> ->. reflexivity. }
  destruct Hscene as (c1 & c2 & Hc12 & Hscene).
  assert (Hloop : forall fuel,
            ((k < fuel)%nat ->
               collision_check_scene fuel (Some n) config w = Return (tt, wk))
            /\ ((fuel <= k)%nat ->
                collision_check_scene fuel (Some n) config w = OutOfFuel)).
  { intros fuel. rewrite Hscene.
    apply (rejection_loop_converges n o _ _ config (objects w) wk Hn Ht Hfin k fuel c1 c2 _
             (evaluate_object (flush_editmode o))).
    - exact Hc12.
    - cbn [objects]. now apply lookup_checked_objects_probe.
    - now rewrite type_evaluate_flush.
    - intros rs. cbn [objects]. now rewrite checked_objects_placed.
    - exact Hbusy.
    - exact Hfree. }
  split; [intros fuel; apply Hloop |]. split; [intros fuel; apply Hloop | exact Hrs].
Qed.

End Convergence.

Lemma collision_check_scene_first_free_witness :
  (forall fuel, (1 < fuel)%nat ->
     @collision_check_scene rigid fuel (Some "workpiece") demo_config demo_world
     = Return (tt, demo_resolved))
  /\ @collision_check_scene rigid 1 (Some "workpiece") demo_config demo_world = OutOfFuel
  /\ location <$> (objects demo_resolved !! "workpiece") = Some (mkVector 2.5 2.5 0)%float.
Proof.
  assert (Hfree : @resample_and_check rigid (Some "workpiece")
                    (lookup_ref demo_world "Ch17_Vest") (lookup_ref demo_world "Link-0")
                    demo_config
                    (set_random_state (drop_draws (1 * 5) (random_state demo_world)) demo_world)
                  = Return ((false, false), demo_resolved)) by (vm_compute; reflexivity).
  assert (Hentry : @collides rigid (Some "workpiece") (lookup_ref demo_world "Ch17_Vest")
                     (lookup_ref demo_world "Link-0") demo_world = true)
    by (vm_compute; reflexivity).
  assert (Hbusy : forall j, (j < 1)%nat ->
            @resample_collides rigid (Some "workpiece") (lookup_ref demo_world "Ch17_Vest")
              (lookup_ref demo_world "Link-0") demo_config
              (set_random_state (drop_draws (j * 5) (random_state demo_world)) demo_world)
            = true).
  { intros j Hj. assert (j = 0%nat) as -> by lia. vm_compute. reflexivity. }
  destruct (@collision_check_scene_first_free rigid (Some "workpiece") demo_config demo_world
              demo_resolved 1 Hentry Hbusy Hfree) as (Hret & Hout & _).
  split; [exact Hret |]. split; [apply Hout; lia | vm_compute; reflexivity].
Defined.

(** ** What the placement leaves alone *)

Section Frame.
Context `{Depsgraph}.

Lemma kept_refl (P : Prop) (o : Object) : kept P o o.
Proof. unfold kept. tauto. Qed.

Lemma kept_trans (P : Prop) (o1 o2 o3 : Object) :
  kept P o1 o2 -> kept P o2 o3 -> kept P o1 o3.
Proof.
  unfold kept. intros (A1 & A2 & A3 & A4 & A5 & A6 & A7 & A8)
                      (B1 & B2 & B3 & B4 & B5 & B6 & B7 & B8).
  split; [congruence |]. split; [congruence |]. split; [congruence |].
  split; [congruence |]. split; [congruence |]. split; [congruence |].
  split; [congruence |].
  intros HnP. destruct (A8 HnP) as (C1 & C2 & C3 & C4).
  destruct (B8 HnP) as (D1 & D2 & D3 & D4). repeat split; congruence.
Qed.

Lemma kept_evaluate (P : Prop) (o : Object) : kept P o (evaluate_object o).
Proof. unfold kept. cbn. tauto. Qed.

Lemma kept_flush (o : Object) : kept True o (flush_editmode o).
Proof. unfold kept, flush_editmode. destruct (edit_vertices o) eqn:He; cbn; tauto. Qed.

Lemma kept_placed (config : Config) (rs : nat -> float) (o : Object) :
  kept True o (placed config rs o).
Proof. unfold kept. cbn. tauto. Qed.

Lemma framed_refl (workpiece : pyref) (w : World) : framed workpiece w w.
Proof.
  intros k. destruct (objects w !! k); constructor. apply kept_refl.
Qed.

Lemma framed_trans (workpiece : pyref) (w1 w2 w3 : World) :
  framed workpiece w1 w2 -> framed workpiece w2 w3 -> framed workpiece w1 w3.
Proof.
  intros H12 H23 k. specialize (H12 k). specialize (H23 k).
  destruct H12 as [o1 o2 K12 |]; inversion H23 as [o2' o3 K23 |]; subst; constructor.
  now apply kept_trans with o2.
Qed.

Lemma kept_True_iff (P : Prop) (o o' : Object) : P -> kept True o o' -> kept P o o'.
Proof.
  unfold kept. intros HP (A1 & A2 & A3 & A4 & A5 & A6 & A7 & _).
  split; [exact A1 |]. split; [exact A2 |]. split; [exact A3 |]. split; [exact A4 |].
  split; [exact A5 |]. split; [exact A6 |]. split; [exact A7 |].
  intros HnP. contradiction.
Qed.

Lemma framed_alter (n : string) (f : Object -> Object) (w : World) (rs : nat -> float) :
  (forall o, kept True o (f o)) ->
  framed (Some n) w (mkWorld (alter f n (objects w)) rs).
Proof.
  intros Hf k. cbn [objects]. rewrite lookup_alter. case_decide.
  - subst k. destruct (objects w !! n) as [o |]; constructor.
    apply kept_True_iff; [reflexivity | apply Hf].
  - destruct (objects w !! k); constructor. apply kept_refl.
Qed.

Lemma framed_evaluate (workpiece : pyref) (w : World) :
  framed workpiece w (evaluate_view_layer w).
Proof.
  intros k. rewrite lookup_evaluate_view_layer.
  destruct (objects w !! k); constructor. apply kept_evaluate.
Qed.

Lemma framed_checked_state (workpiece : pyref) (w : World) :
  framed workpiece w (checked_state workpiece w).
Proof.
  unfold checked_state. destruct workpiece as [n |]; [| apply framed_refl].
  destruct (objects w !! n) as [o |]; [| apply framed_refl].
  destruct (is_mesh (type o)); [| apply framed_refl].
  apply framed_trans with (mkWorld (alter flush_editmode n (objects w)) (random_state w)).
  - apply framed_alter. apply kept_flush.
  - change (mkWorld (checked_objects n (objects w)) (random_state w))
      with (evaluate_view_layer (mkWorld (alter flush_editmode n (objects w))
                                         (random_state w))).
    apply framed_evaluate.
Qed.

Lemma rejection_loop_framed (fuel : nat) (workpiece vest panda_leg : pyref) (config : Config)
    (check1 check2 : bool) (w w' : World) :
  rejection_loop fuel workpiece vest panda_leg config check1 check2 w = Return (tt, w') ->
  framed workpiece w w'.
Proof.
  revert check1 check2 w.
  induction fuel as [| fuel IH]; intros check1 check2 w Hloop.
  - cbn [rejection_loop] in Hloop. destruct (check1 || check2); [discriminate |].
    injection Hloop as <-. apply framed_refl.
  - rewrite rejection_loop_S in Hloop. destruct (check1 || check2).
    + unfold bind in Hloop.
      destruct (randomize_workpiece workpiece config w) as [[wp1 w1] | e |] eqn:Hr;
        try discriminate.
      destruct (randomize_workpiece_returns _ _ _ _ _ Hr) as (n & o & -> & -> & Hn & Hw1 & Hfin).
      destruct (collision_check_objects (Some n) vest w1) as [[c1 w2] | e |] eqn:Hc1;
        try discriminate.
      destruct (collision_check_objects (Some n) panda_leg w2) as [[c2 w3] | e |] eqn:Hc2;
        try discriminate.
      destruct (collision_check_objects_run _ _ _ _ _ Hc1) as [Hw2 _].
      destruct (collision_check_objects_run _ _ _ _ _ Hc2) as [Hw3 _].
      apply framed_trans with w1; [subst w1; apply framed_alter, kept_placed |].
      apply framed_trans with w2; [subst w2; apply framed_checked_state |].
      apply framed_trans with w3; [subst w3; apply framed_checked_state |].
      now apply IH with c1 c2.
    + injection Hloop as <-. apply framed_refl.
Qed.

(** X13. [collision_check_scene] moves nothing but the workpiece.  When it
    returns, the scene has the objects it had, each with its type, bounding
    box and meshes; every object other than the workpiece has the position,
    rotation, scale and mesh data it had (so the obstacles stay where they
    were), and the workpiece keeps its height and its rotations about x and
    y. *)
Theorem collision_check_scene_frame (fuel : nat) (workpiece : pyref) (config : Config)
    (w w' : World) :
  collision_check_scene fuel workpiece config w = Return (tt, w') ->
  (forall k, objects w !! k = None -> objects w' !! k = None)
  /\ (forall k o, objects w !! k = Some o ->
        exists o', objects w' !! k = Some o'
          /\ type o' = type o /\ bound_box o' = bound_box o
          /\ edit_vertices o' = edit_vertices o
          /\ evaluated_vertices o' = evaluated_vertices o
          /\ z (location o') = z (location o)
          /\ x (rotation_euler o') = x (rotation_euler o)
          /\ y (rotation_euler o') = y (rotation_euler o)
          /\ (workpiece <> Some k ->
              location o' = location o /\ rotation_euler o' = rotation_euler o
              /\ scale o' = scale o /\ data_vertices o' = data_vertices o)).
Proof.
  intros Hrun.
  assert (Hframed : framed workpiece w w').
  { unfold collision_check_scene, bind in Hrun. rewrite !objects_get_lookup_ref in Hrun.
    destruct (collision_check_objects workpiece (lookup_ref w "Ch17_Vest") w)
      as [[c1 w1] | e |] eqn:Hc1; try discriminate.
    destruct (collision_check_objects workpiece (lookup_ref w "Link-0") w1)
      as [[c2 w2] | e |] eqn:Hc2; try discriminate.
    destruct (collision_check_objects_run _ _ _ _ _ Hc1) as [Hw1 _].
    destruct (collision_check_objects_run _ _ _ _ _ Hc2) as [Hw2 _].
    apply framed_trans with w1; [subst w1; apply framed_checked_state |].
    apply framed_trans with w2; [subst w2; apply framed_checked_state |].
    exact (rejection_loop_framed _ _ _ _ _ _ _ _ _ Hrun). }
  split.
  - intros k Hk. specialize (Hframed k). rewrite Hk in Hframed. now inversion Hframed.
  - intros k o Hk. specialize (Hframed k). rewrite Hk in Hframed.
    inversion Hframed as [o1 o' K |]; subst. exists o'. split; [reflexivity |]. exact K.
Qed.

End Frame.

Lemma collision_check_scene_frame_witness :
  location <$> (objects demo_resolved !! "Ch17_Vest") = Some (mkVector 0 0 0)%float
  /\ location <$> (objects demo_resolved !! "Link-0") = Some (mkVector 5 5 0)%float.
Proof.
  assert (Hrun : @collision_check_scene rigid 5 (Some "workpiece") demo_config demo_world
                 = Return (tt, demo_resolved)) by (vm_compute; reflexivity).
  destruct (@collision_check_scene_frame rigid _ _ _ _ _ Hrun) as [_ Hkept].
  split.
  - destruct (Hkept "Ch17_Vest" (mesh_at (mkVector 0 0 0) unit_box) eq_refl)
      as (o' & Hlook & _ & _ & _ & _ & _ & _ & _ & Hother).
    rewrite Hlook. cbn [fmap option_fmap option_map].
    destruct Hother as (Hl & _); [discriminate | now rewrite Hl].
  - destruct (Hkept "Link-0" (mesh_at (mkVector 5 5 0) unit_box) eq_refl)
      as (o' & Hlook & _ & _ & _ & _ & _ & _ & _ & Hother).
    rewrite Hlook. cbn [fmap option_fmap option_map].
    destruct Hother as (Hl & _); [discriminate | now rewrite Hl].
Defined.

(** ** More on the safety audit *)

Section SafetyEdges.
Context `{Depsgraph}.
Local Open Scope float_scope.

Lemma SFleb_ltb_trans (a b c : spec_float) :
  SFleb a b = true -> SFltb b c = true -> SFltb a c = true.
Proof. FloatOrder.by_cases. Qed.

Lemma leb_ltb_trans (a b c : float) : (a <=? b) = true -> (b <? c) = true -> (a <? c) = true.
Proof.
  rewrite FloatAxioms.leb_spec, (FloatAxioms.ltb_spec b c), (FloatAxioms.ltb_spec a c).
  apply SFleb_ltb_trans.
Qed.

(** What [find_closest_distance_between_objects] returns when it returns a
    distance. *)
Lemma find_closest_distance_cases (obj1 obj2 : pyref) (w : World) (d : float) (w' : World) :
  find_closest_distance_between_objects obj1 obj2 w = Return (Some d, w') ->
  exists n1 n2 o1 o2,
    obj1 = Some n1 /\ obj2 = Some n2
    /\ objects w !! n1 = Some o1 /\ objects w !! n2 = Some o2
    /\ type o1 = MESH /\ type o2 = MESH
    /\ d = running_min (pair_distances (world_vertices o1) (world_vertices o2)) float_inf
    /\ w' = evaluate_view_layer w.
Proof.
  destruct obj1 as [n1 |]; [| discriminate].
  destruct obj2 as [n2 |]; [| discriminate].
  destruct (objects w !! n1) as [o1 |] eqn:Hn1.
  2:{ unfold find_closest_distance_between_objects, absent_or_not_mesh, bind.
      now rewrite getattr_missing. }
  destruct (is_mesh (type o1)) eqn:Hm1.
  2:{ unfold find_closest_distance_between_objects, absent_or_not_mesh, bind.
      rewrite (getattr_Some n1 o1), Hm1 by exact Hn1. discriminate. }
  destruct (objects w !! n2) as [o2 |] eqn:Hn2.
  2:{ unfold find_closest_distance_between_objects, absent_or_not_mesh, bind.
      rewrite (getattr_Some n1 o1), Hm1 by exact Hn1. cbn [negb].
      now rewrite getattr_missing. }
  destruct (is_mesh (type o2)) eqn:Hm2.
  2:{ unfold find_closest_distance_between_objects, absent_or_not_mesh, bind.
      rewrite (getattr_Some n1 o1), Hm1 by exact Hn1. cbn [negb].
      rewrite (getattr_Some n2 o2), Hm2 by exact Hn2. discriminate. }
  apply is_mesh_MESH in Hm1. apply is_mesh_MESH in Hm2.
  rewrite (find_closest_distance_meshes n1 n2 o1 o2) by assumption.
  intros [= <- <-]. exists n1, n2, o1, o2. repeat split; assumption.
Qed.

(** X14. The distance that [safety_check] reports does not depend on the
    threshold, and a violation stays one under a larger threshold: when
    [safety_check] returns [violation = 1] for a configuration, it returns
    [violation = 1], with the same distance and scene, for every
    configuration whose threshold is at least as large. *)
Theorem safety_check_threshold_monotone (config config' : Config) (w : World) (d : float)
    (w' : World) :
  safety_check config w = Return (1%Z, d, w') ->
  (SafetyZone_Distance config <=? SafetyZone_Distance config') = true ->
  safety_check config' w = Return (1%Z, d, w').
Proof.
  rewrite !safety_check_unfold.
  destruct (find_closest_distance_between_objects _ _ w) as [[[d0 |] w0] | e |];
    try discriminate.
  destruct (d0 <? SafetyZone_Distance config) eqn:Hlt; [| discriminate].
  intros [= <- <-] Hle.
  now rewrite (ltb_leb_trans d0 (SafetyZone_Distance config) (SafetyZone_Distance config')).
Qed.

(** X15. The distance that [find_closest_distance_between_objects] returns
    is always a number at most [inf], also when vertices have no number as a
    coordinate: a pair whose distance is not a number never becomes the
    minimum.  So is the distance that [safety_check] returns. *)
Theorem min_distance_is_a_number (w : World) :
  (forall obj1 obj2 d w',
      find_closest_distance_between_objects obj1 obj2 w = Return (Some d, w') ->
      number d /\ (d <=? float_inf) = true)
  /\ (forall config violation d w',
        safety_check config w = Return (violation, d, w') ->
        number d /\ (d <=? float_inf) = true).
Proof.
  assert (Hfind : forall obj1 obj2 d w',
            find_closest_distance_between_objects obj1 obj2 w = Return (Some d, w') ->
            number d /\ (d <=? float_inf) = true).
  { intros obj1 obj2 d w' Hrun.
    destruct (find_closest_distance_cases _ _ _ _ _ Hrun)
      as (n1 & n2 & o1 & o2 & _ & _ & _ & _ & _ & _ & -> & _).
    apply running_min_le_start. exact number_infinity. }
  split; [exact Hfind |].
  intros config violation d w'. rewrite safety_check_unfold.
  destruct (find_closest_distance_between_objects _ _ w) as [[[d0 |] w0] | e |] eqn:Hrun;
    try discriminate.
  intros [= _ <- _]. now apply (Hfind _ _ _ _ Hrun).
Qed.

Lemma vec_sub_diag (v : Vector) :
  is_finite (x v) = true -> is_finite (y v) = true -> is_finite (z v) = true ->
  vec_sub v v = mkVector 0 0 0.
Proof.
  intros Hx Hy Hz. unfold vec_sub.
  assert (Hzero : forall a, is_finite a = true -> a - a = 0).
  { intros a Ha. apply Prim2SF_inj. now rewrite sub_diag. }
  now rewrite !Hzero.
Qed.

(** X16. When the two meshes share a vertex in world space, of finite
    coordinates, the distance that [find_closest_distance_between_objects]
    returns is at most zero; for 'Hand' and 'Gloves', [safety_check] then
    reports a violation for every threshold above zero. *)
Theorem find_closest_distance_shared_vertex (config : Config) (n1 n2 : string)
    (o1 o2 : Object) (w : World) (v : Vector) :
  objects w !! n1 = Some o1 -> objects w !! n2 = Some o2 ->
  type o1 = MESH -> type o2 = MESH ->
  In v (world_vertices o1) -> In v (world_vertices o2) ->
  is_finite (x v) = true -> is_finite (y v) = true -> is_finite (z v) = true ->
  exists d,
    find_closest_distance_between_objects (Some n1) (Some n2) w
      = Return (Some d, evaluate_view_layer w)
    /\ (d <=? 0) = true
    /\ (n1 = "Hand"%string -> n2 = "Gloves"%string ->
        (0 <? SafetyZone_Distance config) = true ->
        safety_check config w = Return (1%Z, d, evaluate_view_layer w)).
Proof.
  intros Hn1 Hn2 Ht1 Ht2 Hv1 Hv2 Hx Hy Hz.
  set (ds := pair_distances (world_vertices o1) (world_vertices o2)).
  exists (running_min ds float_inf).
  assert (Hrun := find_closest_distance_meshes n1 n2 o1 o2 w Hn1 Hn2 Ht1 Ht2).
  fold ds in Hrun. split; [exact Hrun |].
  assert (Hzero : In 0 ds).
  { unfold ds, pair_distances. apply in_flat_map. exists v. split; [exact Hv1 |].
    apply in_map_iff. exists v. split; [| exact Hv2].
    now rewrite vec_sub_diag. }
  assert (Hle : (running_min ds float_inf <=? 0) = true).
  { apply leb_total; [reflexivity | apply running_min_le_start, number_infinity |].
    apply running_min_none_below; [exact number_infinity | exact Hzero]. }
  split; [exact Hle |].
  intros -> -> Hthr. rewrite safety_check_unfold. unfold lookup_ref.
  rewrite Hn1, Hn2, Hrun.
  now rewrite (leb_ltb_trans _ 0 _ Hle Hthr).
Qed.

End SafetyEdges.

Lemma safety_check_threshold_monotone_witness :
  exists w',
    @safety_check rigid (mkConfig (1, 1) (1, 1) (0, 10) (0, 10) 5.5)%float safety_world
      = Return (1%Z, 5%float, w')
    /\ @safety_check rigid (mkConfig (1, 1) (1, 1) (0, 10) (0, 10) 7)%float safety_world
       = Return (1%Z, 5%float, w').
Proof.
  eexists.
  assert (Hrun : @safety_check rigid (mkConfig (1, 1) (1, 1) (0, 10) (0, 10) 5.5)%float
                   safety_world = Return (1%Z, 5%float, _)) by (vm_compute; reflexivity).
  split; [exact Hrun |].
  apply (@safety_check_threshold_monotone rigid _ _ _ _ _ Hrun). reflexivity.
Defined.

Lemma min_distance_is_a_number_witness :
  exists d w',
    @find_closest_distance_between_objects rigid (Some "Hand") (Some "Gloves")
      nan_gloves_world = Return (Some d, w')
    /\ d = 5%float /\ number d.
Proof.
  eexists. eexists.
  assert (Hrun : @find_closest_distance_between_objects rigid (Some "Hand") (Some "Gloves")
                   nan_gloves_world = Return (Some _, _)) by (vm_compute; reflexivity).
  split; [exact Hrun |]. split; [reflexivity |].
  exact (proj1 (proj1 (@min_distance_is_a_number rigid nan_gloves_world) _ _ _ _ Hrun)).
Defined.

Lemma find_closest_distance_shared_vertex_witness :
  exists d,
    @safety_check rigid demo_config touching_world
      = Return (1%Z, d, @evaluate_view_layer rigid touching_world)
    /\ (d <=? 0)%float = true.
Proof.
  destruct (@find_closest_distance_shared_vertex rigid demo_config "Hand" "Gloves"
              (mesh_at (mkVector 0 0 0) [mkVector 0 0 0; mkVector 1 2 3])
              (mesh_at (mkVector 0 0 0) [mkVector 1 2 3; mkVector 9 9 9])
              touching_world (mkVector 1 2 3)
              eq_refl eq_refl eq_refl eq_refl)
    as (d & _ & Hle & Hsafe).
  - right. left. reflexivity.
  - left. reflexivity.
  - reflexivity.
  - reflexivity.
  - reflexivity.
  - exists d. split; [now apply Hsafe | exact Hle].
Defined.

(** ** More on the dataset log *)

Section LogEdges.
Context `{FloatRepr}.


Lemma text_log_to_csv_unfold (violation : Z) (distance : float) (i : Z)
    (file : option LogText) :
  Text.log_to_csv violation distance i file =
  match (match file with
         | Some text =>
             if (1 <? List.length (read_rows text))%nat then next_image_num (read_rows text)
             else inr i
         | None => inr i
         end) with
  | inl e => Raise e
  | inr i' =>
      Return (tt,
              Some (writerow [image_name i'; str_int violation; float_repr distance]
                      (match file with
                       | Some text =>
                           match read_rows text with
                           | [] => writerow header_row text
                           | _ :: _ => text
                           end
                       | None => writerow header_row (mkLogText [] None)
                       end)))
  end.
Proof.
  unfold Text.log_to_csv, bind, get_state, modify.
  destruct file as [text |]; [| reflexivity].
  destruct (1 <? List.length (read_rows text))%nat; cbn [lift ret]; [| reflexivity].
  destruct (next_image_num (read_rows text)) as [e | i']; reflexivity.
Qed.



(** X18. A log whose last row [log_to_csv] cannot read makes it raise, for
    every index argument: [IndexError] when the last row, after at least one
    other row, is empty or has a first cell without an underscore, and
    [ValueError] when the ASCII text between the underscore and the dot is
    not an integer. *)
Theorem log_to_csv_unreadable_last_row (violation : Z) (distance : float) (i : Z)
    (text : LogText) (front : list (list string)) :
  front <> [] ->
  (read_rows text = front ++ [[]] ->
   Text.log_to_csv violation distance i (Some text) = Raise IndexError)
  /\ (forall name cells,
        read_rows text = front ++ [name :: cells] -> absent "_" name ->
        Text.log_to_csv violation distance i (Some text) = Raise IndexError)
  /\ (forall prefix body ext cells,
        read_rows text
        = front ++ [String.append prefix (String "_" (String.append body (String "." ext)))
                    :: cells] ->
        absent "_" prefix -> absent "_" (String.append body (String "." ext)) ->
        absent "." body -> ascii_text body -> py_int body = inl ValueError ->
        Text.log_to_csv violation distance i (Some text) = Raise ValueError).
Proof.
  intros Hfront.
  assert (Hlen : forall row, (1 <? List.length (front ++ [row]))%nat = true).
  { intros row. apply Nat.ltb_lt. rewrite length_app. cbn [List.length].
    destruct front; [congruence | cbn [List.length]; lia]. }
  split; [| split].
  - intros Hrows. rewrite text_log_to_csv_unfold, Hrows, Hlen. unfold next_image_num.
    now rewrite index_last.
  - intros name cells Hrows Hname.
    rewrite text_log_to_csv_unfold, Hrows, Hlen. unfold next_image_num.
    rewrite index_last. cbn [index nth_error]. now rewrite split_absent.
  - intros prefix body ext cells Hrows Hprefix Hrest Hbody _ Hint.
    rewrite text_log_to_csv_unfold, Hrows, Hlen. unfold next_image_num.
    rewrite index_last. cbn [index nth_error].
    rewrite split_app by exact Hprefix. rewrite split_absent by exact Hrest.
    cbn [index nth_error]. rewrite split_app by exact Hbody.
    cbn [index nth_error]. now rewrite Hint.
Qed.




End LogEdges.


Lemma log_to_csv_unreadable_last_row_witness :
  @Text.log_to_csv demo_float_repr 0 5 7
    (Some (mkLogText [header_row; ["image_abc.jpg"; "0"; "5.0"]] None)) = Raise ValueError
  /\ @Text.log_to_csv demo_float_repr 0 5 7
       (Some (mkLogText [header_row; ["image.jpg"; "0"; "5.0"]] None)) = Raise IndexError
  /\ @Text.log_to_csv demo_float_repr 0 5 7 (Some (mkLogText [header_row; []] None))
     = Raise IndexError.
Proof.
  split; [| split].
  - apply (proj2 (proj2 (@log_to_csv_unreadable_last_row demo_float_repr 0 5 7
                           (mkLogText [header_row; ["image_abc.jpg"; "0"; "5.0"]] None)
                           [header_row] ltac:(discriminate)))
             "image" "abc" "jpg" ["0"; "5.0"]).
    + reflexivity.
    + unfold absent. cbn [list_ascii_of_string In]. intuition discriminate.
    + unfold absent. vm_compute. intuition discriminate.
    + unfold absent. cbn [list_ascii_of_string In]. intuition discriminate.
    + unfold ascii_text. cbn [list_ascii_of_string]. repeat constructor.
    + reflexivity.
  - apply (proj1 (proj2 (@log_to_csv_unreadable_last_row demo_float_repr 0 5 7
                           (mkLogText [header_row; ["image.jpg"; "0"; "5.0"]] None)
                           [header_row] ltac:(discriminate)))
             "image.jpg" ["0"; "5.0"]).
    + reflexivity.
    + unfold absent. cbn [list_ascii_of_string In]. intuition discriminate.
  - apply (proj1 (@log_to_csv_unreadable_last_row demo_float_repr 0 5 7
                    (mkLogText [header_row; []] None) [header_row] ltac:(discriminate))).
    reflexivity.
Defined.


(** ** Loading the scene *)

Section Loading.

Lemma parent_is_exclusive (obj : Loaded) :
  parent_is "Worker" obj = true -> parent_is "Panda" obj = false.
Proof.
  unfold parent_is. destruct (parent_name obj) as [p |]; [| reflexivity].
  intros Hp. apply String.eqb_eq in Hp. now subst p.
Qed.

Lemma categorize_lookup (obj : Loaded) (d : gmap string (list Loaded)) :
  is_Some (d !! "Worker") -> is_Some (d !! "Panda") ->
  exists d', categorize obj d = Some d'
             /\ forall key, d' !! key = group_step key (d !! key) obj.
Proof.
  intros [lw Hw] [lp Hp]. unfold categorize, group_step, group_append.
  destruct (parent_is "Worker" obj).
  - rewrite Hw. eexists. split; [reflexivity |]. intros key.
    destruct (String.eqb_spec key "Worker") as [-> | Hne].
    + now rewrite lookup_insert_eq, Hw.
    + now rewrite lookup_insert_ne by congruence.
  - destruct (parent_is "Panda" obj).
    + rewrite Hp. eexists. split; [reflexivity |]. intros key.
      destruct (String.eqb_spec key "Panda") as [-> | Hne].
      * now rewrite lookup_insert_eq, Hp.
      * now rewrite lookup_insert_ne by congruence.
    + eexists. split; [reflexivity |]. intros key.
      destruct (String.eqb_spec key (obj_name obj)) as [-> | Hne].
      * now rewrite lookup_insert_eq.
      * now rewrite lookup_insert_ne by congruence.
Qed.

Lemma group_step_is_Some (key : string) (group : option (list Loaded)) (obj : Loaded) :
  is_Some group -> is_Some (group_step key group obj).
Proof.
  intros [l ->]. unfold group_step.
  destruct (parent_is "Worker" obj), (parent_is "Panda" obj),
    (String.eqb key "Worker"), (String.eqb key "Panda"), (String.eqb key (obj_name obj));
    cbn [option_map]; eauto.
Qed.

Lemma categorize_each_lookup (objs : list Loaded) :
  forall d : gmap string (list Loaded),
    is_Some (d !! "Worker") -> is_Some (d !! "Panda") ->
    exists d', categorize_each objs d = Some d'
               /\ forall key, d' !! key = fold_left (group_step key) objs (d !! key).
Proof.
  induction objs as [| obj rest IH]; intros d Hw Hp.
  - exists d. split; reflexivity.
  - destruct (categorize_lookup obj d Hw Hp) as (d1 & Hd1 & Hlook1).
    destruct (IH d1) as (d' & Hd' & Hlook').
    + rewrite Hlook1. now apply group_step_is_Some.
    + rewrite Hlook1. now apply group_step_is_Some.
    + exists d'. cbn [categorize_each fold_left]. rewrite Hd1. split; [exact Hd' |].
      intros key. now rewrite Hlook', Hlook1.
Qed.

Lemma load_scene_from_blend_lookup (objs : list Loaded) :
  exists d, load_scene_from_blend objs = Some d
            /\ forall key, d !! key =
                 fold_left (group_step key) objs
                   (if String.eqb key "Worker" then Some []
                    else if String.eqb key "Panda" then Some [] else None).
Proof.
  unfold load_scene_from_blend.
  destruct (categorize_each_lookup objs (<["Worker" := []]> (<["Panda" := []]> ∅)))
    as (d & Hd & Hlook).
  - now rewrite lookup_insert_eq.
  - rewrite lookup_insert_ne by discriminate. now rewrite lookup_insert_eq.
  - exists d. split; [exact Hd |]. intros key. rewrite Hlook. f_equal.
    destruct (String.eqb_spec key "Worker") as [-> | Hw].
    + now rewrite lookup_insert_eq.
    + rewrite lookup_insert_ne by congruence.
      destruct (String.eqb_spec key "Panda") as [-> | Hp].
      * now rewrite lookup_insert_eq.
      * rewrite lookup_insert_ne by congruence. apply lookup_empty.
Qed.

Lemma fold_group_step_is_Some (key : string) (objs : list Loaded) :
  forall group,
    is_Some (fold_left (group_step key) objs group)
    <-> is_Some group \/ exists obj, In obj objs /\ standalone obj /\ obj_name obj = key.
Proof.
  induction objs as [| obj rest IH]; intros group; cbn [fold_left].
  - split; [now left | intros [Hg | (obj & [] & _)]; exact Hg].
  - rewrite IH. split.
    + intros [Hstep | (o & Hin & Ho)].
      * unfold group_step in Hstep.
        destruct (parent_is "Worker" obj) eqn:Hw.
        { left. destruct (String.eqb key "Worker"), group; cbn [option_map] in Hstep;
            eauto; destruct Hstep; discriminate. }
        destruct (parent_is "Panda" obj) eqn:Hp.
        { left. destruct (String.eqb key "Panda"), group; cbn [option_map] in Hstep;
            eauto; destruct Hstep; discriminate. }
        destruct (String.eqb_spec key (obj_name obj)) as [-> | Hne].
        { right. exists obj. repeat split; [now left | exact Hw | exact Hp]. }
        now left.
      * right. exists o. split; [now right | exact Ho].
    + intros [Hg | (o & [<- | Hin] & [Hw Hp] & Hname)].
      * left. now apply group_step_is_Some.
      * left. unfold group_step. rewrite Hw, Hp, <- Hname, String.eqb_refl. eauto.
      * right. exists o. now repeat split.
Qed.

Lemma fold_group_step_children (key : string) (objs : list Loaded) :
  key = "Worker" \/ key = "Panda" ->
  (forall obj, In obj objs -> standalone obj -> obj_name obj <> key) ->
  forall l,
    fold_left (group_step key) objs (Some l)
    = Some (l ++ List.filter (parent_is key) objs).
Proof.
  intros Hkey. induction objs as [| obj rest IH]; intros Hfree l; cbn [fold_left List.filter].
  - now rewrite app_nil_r.
  - assert (Hrest : forall o, In o rest -> standalone o -> obj_name o <> key)
      by (intros o Hin; apply Hfree; now right).
    unfold group_step at 2.
    destruct (parent_is "Worker" obj) eqn:Hw.
    + pose proof (parent_is_exclusive obj Hw) as Hp.
      destruct Hkey as [-> | ->]; cbn [String.eqb Ascii.eqb Bool.eqb option_map].
      * rewrite Hw. rewrite IH by exact Hrest. now rewrite <- app_assoc.
      * rewrite Hp. now apply IH.
    + destruct (parent_is "Panda" obj) eqn:Hp.
      * destruct Hkey as [-> | ->]; cbn [String.eqb Ascii.eqb Bool.eqb option_map].
        -- rewrite Hw. now apply IH.
        -- rewrite Hp. rewrite IH by exact Hrest. now rewrite <- app_assoc.
      * destruct (String.eqb_spec key (obj_name obj)) as [Heq | Hne].
        -- exfalso. apply (Hfree obj); [now left | now split | now symmetry].
        -- assert (Hno : parent_is key obj = false) by (destruct Hkey as [-> | ->]; assumption).
           rewrite Hno. now apply IH.
Qed.

Lemma fold_group_step_other (key : string) (objs : list Loaded) :
  key <> "Worker" -> key <> "Panda" ->
  (forall obj, In obj objs -> standalone obj -> obj_name obj <> key) ->
  forall group, fold_left (group_step key) objs group = group.
Proof.
  intros Hw Hp. induction objs as [| obj rest IH]; intros Hfree group; cbn [fold_left];
    [reflexivity |].
  rewrite IH by (intros o Hin; apply Hfree; now right).
  unfold group_step.
  destruct (String.eqb_spec key "Worker") as [| _]; [contradiction |].
  destruct (String.eqb_spec key "Panda") as [| _]; [contradiction |].
  destruct (parent_is "Worker" obj) eqn:Hpw; [reflexivity |].
  destruct (parent_is "Panda" obj) eqn:Hpp; [reflexivity |].
  destruct (String.eqb_spec key (obj_name obj)) as [Heq | Hne]; [| reflexivity].
  exfalso. apply (Hfree obj); [now left | now split | now symmetry].
Qed.

Lemma fold_group_step_app (key : string) (before after : list Loaded) (obj : Loaded) group :
  standalone obj ->
  fold_left (group_step key) (before ++ obj :: after) group
  = fold_left (group_step key) after
      (if String.eqb key (obj_name obj) then Some [obj]
       else fold_left (group_step key) before group).
Proof.
  intros [Hw Hp]. rewrite fold_left_app. cbn [fold_left]. f_equal.
  unfold group_step at 1. now rewrite Hw, Hp.
Qed.

(** X20. [load_scene_from_blend] returns a dictionary for every file, and
    never fails on one of its own keys.  The dictionary holds the keys
    ["Worker"] and ["Panda"], also for a file without such objects, and
    besides them exactly the names of the objects whose parent is neither
    named ["Worker"] nor ["Panda"]. *)
Theorem load_scene_from_blend_keys (objs : list Loaded) :
  exists d,
    load_scene_from_blend objs = Some d
    /\ forall key,
         is_Some (d !! key)
         <-> key = "Worker" \/ key = "Panda"
             \/ exists obj, In obj objs /\ standalone obj /\ obj_name obj = key.
Proof.
  destruct (load_scene_from_blend_lookup objs) as (d & Hd & Hlook).
  exists d. split; [exact Hd |]. intros key. rewrite Hlook, fold_group_step_is_Some.
  destruct (String.eqb_spec key "Worker") as [-> | Hw].
  - split; [intros _; now left | intros _; left; eauto].
  - destruct (String.eqb_spec key "Panda") as [-> | Hp].
    + split; [intros _; right; now left | intros _; left; eauto].
    + split.
      * intros [[l Hl] | Hex]; [discriminate | now right; right].
      * intros [? | [? | Hex]]; [contradiction | contradiction | now right].
Qed.

(** X21. An object with its own entry and no later object of its name
    under its own entry is found under its name, first in the list.  When
    it is named ["Worker"] or ["Panda"], its entry replaces the group
    collected so far: the list holds the object itself and then only the
    children that the loop reaches after it, and the children reached
    before it are dropped.  Under any other name the list holds the object
    alone. *)
Theorem load_scene_from_blend_standalone (before after : list Loaded) (obj : Loaded) :
  standalone obj ->
  (forall o, In o after -> standalone o -> obj_name o <> obj_name obj) ->
  exists d,
    load_scene_from_blend (before ++ obj :: after) = Some d
    /\ d !! obj_name obj
       = Some (obj :: (if String.eqb (obj_name obj) "Worker"
                          || String.eqb (obj_name obj) "Panda"
                       then List.filter (parent_is (obj_name obj)) after
                       else [])).
Proof.
  intros Hobj Hafter.
  destruct (load_scene_from_blend_lookup (before ++ obj :: after)) as (d & Hd & Hlook).
  exists d. split; [exact Hd |].
  rewrite Hlook, fold_group_step_app by exact Hobj. rewrite String.eqb_refl.
  destruct (String.eqb_spec (obj_name obj) "Worker") as [Hw | Hw].
  - cbn [orb]. now rewrite fold_group_step_children by (auto || exact Hafter).
  - destruct (String.eqb_spec (obj_name obj) "Panda") as [Hp | Hp]; cbn [orb].
    + now rewrite fold_group_step_children by (auto || exact Hafter).
    + now rewrite fold_group_step_other by assumption.
Qed.

(** X22. In a file where no object with its own entry is named ["Worker"]
    or ["Panda"], the two groups are the children of the objects of these
    names, in the order of the file. *)
Theorem load_scene_from_blend_children (objs : list Loaded) :
  (forall obj, In obj objs -> standalone obj ->
     obj_name obj <> "Worker" /\ obj_name obj <> "Panda") ->
  exists d,
    load_scene_from_blend objs = Some d
    /\ d !! "Worker" = Some (List.filter (parent_is "Worker") objs)
    /\ d !! "Panda" = Some (List.filter (parent_is "Panda") objs).
Proof.
  intros Hfree.
  destruct (load_scene_from_blend_lookup objs) as (d & Hd & Hlook).
  exists d. split; [exact Hd |]. rewrite !Hlook.
  cbn [String.eqb Ascii.eqb Bool.eqb].
  split; rewrite fold_group_step_children; auto; intros obj Hin Hobj;
    now destruct (Hfree obj Hin Hobj).
Qed.

End Loading.

Lemma load_scene_from_blend_standalone_witness :
  exists d,
    load_scene_from_blend demo_file = Some d
    /\ d !! "Worker" = Some [ mkLoaded "Worker" None; mkLoaded "WorkerBody" (Some "Worker") ].
Proof.
  apply (load_scene_from_blend_standalone
           [ mkLoaded "Gloves" (Some "Worker"); mkLoaded "Gripper" (Some "Panda");
             mkLoaded "Table" None ]
           [ mkLoaded "WorkerBody" (Some "Worker") ]
           (mkLoaded "Worker" None)).
  - split; reflexivity.
  - intros o [<- | []] [Hw _]. discriminate.
Defined.

Lemma load_scene_from_blend_children_witness :
  exists d,
    load_scene_from_blend children_file = Some d
    /\ d !! "Worker" = Some [ mkLoaded "Gloves" (Some "Worker");
                              mkLoaded "WorkerBody" (Some "Worker") ]
    /\ d !! "Panda" = Some [ mkLoaded "Gripper" (Some "Panda") ].
Proof.
  apply (load_scene_from_blend_children children_file).
  intros obj Hin [Hw Hp]. cbn [children_file In] in Hin.
  destruct Hin as [<- | [<- | [<- | [<- | []]]]];
    try discriminate; split; discriminate.
Defined.

(** ** Cleaning the scene *)

Section Cleanup.
Context `{Depsgraph}.

Lemma select_each_run (objs : list (string * Object)) :
  forall (w : World) (sel locked : gset string),
  exists sel',
    select_each objs (mkScene w sel locked) = Return (tt, mkScene w sel' locked)
    /\ forall name,
         name ∈ sel'
         <-> name ∈ sel
             \/ exists obj, In (name, obj) objs /\ not_camera_or_light (type obj) = true
                            /\ name ∉ locked.
Proof.
  induction objs as [| [n o] rest IH]; intros w sel locked.
  - exists sel. split; [reflexivity |]. intros name. split; [now left |].
    intros [Hin | (obj & [] & _)]. exact Hin.
  - cbn [select_each]. unfold bind.
    destruct (not_camera_or_light (type o)) eqn:Ho.
    + unfold select_set, modify. cbn [scene_world selected unselectable].
      case_bool_decide as Hlocked.
      * destruct (IH w sel locked) as (sel' & Hrun & Hsel').
        exists sel'. split; [exact Hrun |]. intros name. rewrite Hsel'. split.
        -- intros [Hin | (obj & Hin & Hobj)]; [now left |].
           right. exists obj. split; [now right | exact Hobj].
        -- intros [Hin | (obj & [[= <- <-] | Hin] & Hobj & Hfree)];
             [now left | contradiction |].
           right. exists obj. now repeat split.
      * destruct (IH w ({[ n ]} ∪ sel) locked) as (sel' & Hrun & Hsel').
        exists sel'. split; [exact Hrun |]. intros name.
        rewrite Hsel', elem_of_union, elem_of_singleton. split.
        -- intros [[-> | Hin] | (obj & Hin & Hobj)].
           ++ right. exists o. split; [now left | now split].
           ++ now left.
           ++ right. exists obj. split; [now right | exact Hobj].
        -- intros [Hin | (obj & [[= <- <-] | Hin] & Hobj)].
           ++ left. now right.
           ++ left. now left.
           ++ right. exists obj. now split.
    + unfold ret. destruct (IH w sel locked) as (sel' & Hrun & Hsel').
      exists sel'. split; [exact Hrun |]. intros name. rewrite Hsel'. split.
      * intros [Hin | (obj & Hin & Hobj)]; [now left |].
        right. exists obj. split; [now right | exact Hobj].
      * intros [Hin | (obj & [[= <- <-] | Hin] & Hobj & Hfree)]; [now left | congruence |].
        right. exists obj. now repeat split.
Qed.

Lemma cleanup_scene_run (s : Scene) :
  exists s',
    cleanup_scene s = Return (tt, s')
    /\ random_state (scene_world s') = random_state (scene_world s)
    /\ selected s' = ∅
    /\ unselectable s' = unselectable s
    /\ forall name,
         objects (scene_world s') !! name
         = surviving (unselectable s) name (objects (scene_world s) !! name).
Proof.
  unfold cleanup_scene, bind, select_all_deselect, modify.
  cbn [scene_world selected unselectable].
  destruct (select_each_run (map_to_list (objects (scene_world s))) (scene_world s) ∅
              (unselectable s)) as (sel' & Hrun & Hsel').
  rewrite Hrun. unfold object_delete. cbn [scene_world selected unselectable].
  eexists. split; [reflexivity |].
  cbn [scene_world selected unselectable set_objects objects random_state].
  split; [reflexivity |]. split; [reflexivity |]. split; [reflexivity |].
  intros name. unfold surviving.
  destruct (objects (scene_world s) !! name) as [o |] eqn:Hname.
  - destruct (not_camera_or_light (type o)) eqn:Ho; cbn [andb].
    + case_bool_decide as Hlocked; cbn [negb].
      * apply map_lookup_filter_Some. split; [exact Hname |]. cbn [fst].
        intros Hin. apply Hsel' in Hin as [Hin | (o' & _ & _ & Hfree)].
        -- now apply not_elem_of_empty in Hin.
        -- contradiction.
      * apply map_lookup_filter_None. right. intros o' Ho' Hnot. cbn [fst] in Hnot.
        apply Hnot, Hsel'. right. exists o. split; [| now split].
        apply list_elem_of_In, elem_of_map_to_list. exact Hname.
    + apply map_lookup_filter_Some. split; [exact Hname |]. cbn [fst].
      intros Hin. apply Hsel' in Hin as [Hin | (o' & Hin & Ho' & _)].
      * now apply not_elem_of_empty in Hin.
      * apply list_elem_of_In, elem_of_map_to_list in Hin. congruence.
  - apply map_lookup_filter_None. now left.
Qed.



(** X25. [cleanup_scene] need not be run twice: on the scene that it
    leaves it changes nothing. *)
Theorem cleanup_scene_idempotent (s s' : Scene) :
  cleanup_scene s = Return (tt, s') ->
  cleanup_scene s' = Return (tt, s').
Proof.
  intros Hrun. destruct (cleanup_scene_run s) as (s1 & Hrun1 & _ & Hsel & Hlocked & Hlook).
  rewrite Hrun in Hrun1. injection Hrun1 as <-.
  destruct (cleanup_scene_run s') as (s2 & Hrun2 & Hrs2 & Hsel2 & Hlocked2 & Hlook2).
  rewrite Hrun2. do 2 f_equal.
  destruct s' as [[objs' rs'] sel' locked'], s2 as [[objs2 rs2] sel2 locked2].
  cbn [scene_world selected unselectable objects random_state] in *. subst.
  f_equal. f_equal. apply map_eq. intros name. rewrite Hlook2, Hlook.
  unfold surviving. destruct (objects (scene_world s) !! name) as [o |]; [| reflexivity].
  destruct (not_camera_or_light (type o) && negb (bool_decide (name ∈ unselectable s)))
    eqn:Ho; [reflexivity | now rewrite Ho].
Qed.

End Cleanup.

(** With a hand that cannot be selected, the hand is what [cleanup_scene]
    leaves besides the camera. *)
Example cleanup_scene_locked_hand :
  exists s',
    cleanup_scene locked_hand_scene = Return (tt, s')
    /\ type <$> objects (scene_world s') !! "Hand" = Some MESH
    /\ objects (scene_world s') !! "Gloves" = None
    /\ type <$> objects (scene_world s') !! "Camera" = Some CAMERA.
Proof. eexists. split; [reflexivity |]. repeat split. Qed.


Lemma cleanup_scene_idempotent_witness :
  exists s',
    cleanup_scene camera_scene = Return (tt, s')
    /\ cleanup_scene s' = Return (tt, s').
Proof.
  destruct (cleanup_scene camera_scene) as [[[] s'] | e |] eqn:Hrun;
    [| vm_compute in Hrun; discriminate | vm_compute in Hrun; discriminate].
  exists s'. split; [reflexivity |].
  exact (cleanup_scene_idempotent camera_scene s' Hrun).
Defined.

(** ** The worker's pose *)

Section Pose.
Local Open Scope float_scope.











End Pose.


